(** * purge-gcloud-app: retention of deployed App Engine versions

    A shallow embedding of [index.js] (and of what [run.js], the README and
    the type declaration say about it), with the properties of the retention
    selection and of the batched deletion proved over it.

    Layout: the host model (dates, the [gcloud] child process, arrays on a
    heap, the trace of observable effects), then the three functions of
    [index.js], then sample inputs, then the theorems. *)

From Stdlib Require Import ZArith QArith Ascii String.
From stdpp Require Import gmap strings list fin_maps sorting.

Local Open Scope string_scope.
Local Open Scope list_scope.
Local Open Scope Z_scope.

(** ** Constants of [index.js] *)

Definition keepMinimumDefault : Z := 20.
Definition keepDailyAmountDefault : Z := 7.
(** [deleteAtMost]: deleting is slow. *)
Definition deleteAtMost : nat := 4.

(** ** Dates

    A [Date] is its time value: milliseconds since 1970-01-01T00:00:00Z, an
    integer. The model keeps the time value unbounded: the Invalid Date and
    the clipping at +-8.64e15 ms are outside it. The calendar arithmetic
    follows ECMA-262 (21.4.1), on the proleptic Gregorian calendar. *)

Module Date.

Definition msPerDay : Z := 86400000.

Definition Day (t : Z) : Z := t / msPerDay.
Definition TimeWithinDay (t : Z) : Z := t mod msPerDay.

(** The year (0..399), the month (1..12) and the day of the month of the
    day [doe] (0..146096) of an era: 400 years that start on a 1st of March,
    so that the leap day comes last in its year. *)
Definition dayOfEra (doe : Z) : Z * Z * Z :=
  let yoe := (doe - doe / 1460 + doe / 36524 - doe / 146096) / 365 in
  let doy := doe - (365 * yoe + yoe / 4 - yoe / 100) in
  let mp := (5 * doy + 2) / 153 in
  let d := doy - (153 * mp + 2) / 5 + 1 in
  let m := if mp <? 10 then mp + 3 else mp - 9 in
  (yoe, m, d).

(** And back: the day of the era of the day [d] of the month [m] of the
    year [yoe] of the era. *)
Definition eraDay (yoe m d : Z) : Z :=
  let mp := if 2 <? m then m - 3 else m + 9 in
  yoe * 365 + yoe / 4 - yoe / 100 + (153 * mp + 2) / 5 + d - 1.

(** Year, month (1..12 here; ECMA-262 counts 0..11) and day of the month of
    a day number. The era 0 starts on 0000-03-01, day -719468. *)
Definition civil (days : Z) : Z * Z * Z :=
  let z := days + 719468 in
  let era := z / 146097 in
  let '(yoe, m, d) := dayOfEra (z - era * 146097) in
  let y := yoe + era * 400 in
  (if m <=? 2 then y + 1 else y, m, d).

Definition YearFromTime (t : Z) : Z := (civil (Day t)).1.1.
Definition MonthFromTime (t : Z) : Z := (civil (Day t)).1.2 - 1.
Definition DateFromTime (t : Z) : Z := (civil (Day t)).2.

(** Day number of the first day of month [month] (0..11, other values carry
    into the year) of [year], plus [date - 1]. *)
Definition MakeDay (year month date : Z) : Z :=
  let ym := year + month / 12 in
  let mn := month mod 12 + 1 in
  let y := if mn <=? 2 then ym - 1 else ym in
  let era := y / 400 in
  era * 146097 + eraDay (y - era * 400) mn date - 719468.

Definition MakeDate (day time : Z) : Z := day * msPerDay + time.

Section LocalTime.
(** [LocalTZA t isUTC]: the offset of the host's time zone in
    milliseconds, at the UTC time [t] ([isUTC = true]) or at the local
    time [t] ([isUTC = false]). *)
Variable LocalTZA : Z -> bool -> Z.

Definition LocalTime (t : Z) : Z := t + LocalTZA t true.
Definition UTC (t : Z) : Z := t - LocalTZA t false.

(** [d.getDate()] *)
Definition getDate (d : Z) : Z := DateFromTime (LocalTime d).

(** [d.setDate(date)]: the new time value of [d]. *)
Definition setDate (d date : Z) : Z :=
  let t := LocalTime d in
  UTC (MakeDate (MakeDay (YearFromTime t) (MonthFromTime t) date)
                (TimeWithinDay t)).
End LocalTime.

(** The last decimal digit of [n], and its last [width] digits put before
    [acc]. *)
Definition digit (n : Z) : ascii := ascii_of_nat (48 + Z.to_nat (n mod 10))%nat.

Fixpoint pad (width : nat) (n : Z) (acc : string) : string :=
  match width with
  | O => acc
  | S w => pad w (n / 10) (String (digit n) acc)
  end.

(** The date of [d.toISOString()]: four digits for the years 0..9999, a sign
    and six digits for the others; then the month and the day. *)
Definition dateText (day : Z) : string :=
  let '(y, m, d) := civil day in
  let year :=
    if (0 <=? y) && (y <=? 9999) then pad 4 y ""
    else (if y <? 0 then "-" else "+") +:+ pad 6 (Z.abs y) "" in
  year +:+ "-" +:+ pad 2 m "" +:+ "-" +:+ pad 2 d "".

(** The time of day of [d.toISOString()]. *)
Definition timeText (w : Z) : string :=
  "T" +:+ pad 2 (w / 3600000) "" +:+ ":" +:+ pad 2 (w / 60000 mod 60) ""
    +:+ ":" +:+ pad 2 (w / 1000 mod 60) "" +:+ "." +:+ pad 3 (w mod 1000) "" +:+ "Z".

(** [d.toISOString()] *)
Definition toISOString (t : Z) : string :=
  dateText (Day t) +:+ timeText (TimeWithinDay t).

End Date.

(** [s.substr(0, 10)] *)
Definition substr_0_10 (s : string) : string := substring 0 10 s.

(** The key of a day bucket: [d.toISOString().substr(0, 10)], the UTC date
    of [d] as YYYY-MM-DD. *)
Definition dayKey (t : Z) : string := substr_0_10 (Date.toISOString t).


(** ** Values, records and the host *)

(** A JavaScript value, as far as the program tells values apart: it tests
    [typeof version !== 'string'], hands [undefined] to the child process
    where a property is missing, and returns a number or nothing. *)
Inductive JsValue :=
| JsUndefined
| JsNull
| JsBoolean (b : bool)
| JsNumber (n : Z)
| JsString (s : string)
| JsObject.

(** [log]: a function from a string to nothing. [ConsoleInfo] is the default
    [(s) => console.info(s)]; a caller's function is known by a number. Every
    sink records what it is given. *)
Inductive LogSink :=
| ConsoleInfo
| CallerLog (n : nat).

(** A version as [gcloud app versions list --format="json"] prints it: the
    fields the program reads. [traffic_split] is a fraction, only ever
    compared with 0.0; [diskUsageBytes] ([v.version.diskUsageBytes]) is a
    string of digits and may be missing; [last_deployed_time] is the time
    value of [new Date(v.last_deployed_time.datetime)]. *)
Module Version.
Record t := {
  id : string;
  project : string;
  service : string;
  traffic_split : Q;
  diskUsageBytes : option string;
  last_deployed_time : Z;
}.
End Version.

(** A number as [parseInt] gives it: NaN, an infinity, or a double whose
    value is an integer, given by its sign and its magnitude
    ([Finite true 0] is -0). *)
Inductive Double :=
| NaN
| Infinity (negative : bool)
| Finite (negative : bool) (magnitude : Z).

(** The objects pushed on [candidates]. *)
Module Candidate.
Record t := {
  id : string;
  usage : Double;
  lastDeployed : Z;
}.
End Candidate.

(** [PurgeOptions] of the type declaration: [project] is required, the other
    properties may be missing. *)
Module PurgeOptions.
Record t := {
  project : string;
  service : option string;
  keepMinimum : option Z;
  keepDailyAmount : option Z;
  log : option LogSink;
}.
End PurgeOptions.

(** What a function documented as taking [PurgeOptions] is handed: an options
    object, or (as [purgeOldVersionsFor] does) the project string. *)
Inductive Options :=
| OptionsObject (o : PurgeOptions.t)
| OptionsString (s : string).

(** [const {log, project, service} = options]: a string has none of the three
    properties. *)
Definition destructure (options : Options)
  : option LogSink * JsValue * JsValue :=
  match options with
  | OptionsObject o =>
      (PurgeOptions.log o,
       JsString (PurgeOptions.project o),
       from_option JsString JsUndefined (PurgeOptions.service o))
  | OptionsString _ => (None, JsUndefined, JsUndefined)
  end.

(** The standard output of a child process, told apart by what [JSON.parse]
    makes of it: a JSON text, of which the program reads at most the array
    of versions, or a text that [JSON.parse] rejects. *)
Inductive Stdout :=
| Json (versions : list Version.t)
| NotJson.

(** The result of [childProcess.spawnSync] for a child that was spawned:
    [status] is the exit code, or [null] when the child was killed (the
    timeout does that); both streams were captured. *)
Record SpawnSyncReturns := {
  status : option Z;
  stdout : Stdout;
  stderr : string;
}.

(** The host the program runs on: the time zone, the clock that [new Date()]
    reads, and the [gcloud] command: what the child process number [n]
    (counting the calls of one run from 0) returns for its arguments. *)
Record Host := {
  LocalTZA : Z -> bool -> Z;
  clock : Z;
  gcloud : nat -> list JsValue -> SpawnSyncReturns;
}.

(** ** Messages and exceptions

    A message is kept as the template it was built from and the values put
    into it; [Message_text] renders it. *)
Inductive Message :=
| KeepingFor (key id : string) (since : Z)
| KeepingForRecent (n : nat) (id : string) (since : Z)
| Deleting (id : string) (since : Z)
| EnactingDeletion (next : list JsValue)
| CouldNotDelete (status : option Z).

Inductive ErrorMessage :=
| CouldNotListVersions (status : option Z)
| BadVersion (version : JsValue)
| DeletedWithError (count : Z).

Inductive Exception :=
| Error (m : ErrorMessage)
| TypeError (m : string)
| SyntaxError.

Fixpoint decimal (fuel : nat) (n : Z) (acc : string) : string :=
  match fuel with
  | O => acc
  | S f =>
      if n <? 10 then String (Date.digit n) acc
      else decimal f (n / 10) (String (Date.digit n) acc)
  end.

(** [`${n}`] for an integer. *)
Definition Z_text (n : Z) : string :=
  let digits := decimal (S (Z.to_nat (Z.log2 (Z.abs n)))) (Z.abs n) "" in
  if n <? 0 then "-" +:+ digits else digits.

Definition status_text (status : option Z) : string :=
  from_option Z_text "null" status.

(** What [join] makes of an element: nothing of [undefined] and [null]. *)
Definition element_text (v : JsValue) : string :=
  match v with
  | JsUndefined | JsNull => ""
  | JsBoolean b => if b then "true" else "false"
  | JsNumber n => Z_text n
  | JsString s => s
  | JsObject => "[object Object]"
  end.

Definition join (sep : string) (l : list JsValue) : string :=
  String.concat sep (element_text <$> l).

Section Text.
(** [prettyMs] of the pretty-ms package. *)
Variable prettyMs : Z -> string.

Definition deployedString (since : Z) : string :=
  "deployed " +:+ prettyMs since +:+ " ago".

Definition Message_text (m : Message) : string :=
  match m with
  | KeepingFor key id since =>
      "Keeping for " +:+ key +:+ ": " +:+ id +:+ " (" +:+ deployedString since +:+ ")"
  | KeepingForRecent n id since =>
      "Keeping for recent " +:+ Z_text (Z.of_nat n) +:+ ": " +:+ id
        +:+ " (" +:+ deployedString since +:+ ")"
  | Deleting id since => "Deleting " +:+ id +:+ " " +:+ deployedString since
  | EnactingDeletion next => "Enacting deletion for versions: " +:+ join " " next
  | CouldNotDelete status => "Could not delete versions: " +:+ status_text status
  end.
End Text.

(** ** The world: arrays that are mutated in place, and the trace *)

Inductive Event :=
| Logged (sink : LogSink) (m : Message)       (* log(...) *)
| Spawned (args : list JsValue)               (* childProcess.spawnSync('gcloud', args, ...) *)
| StderrWritten (s : string)                  (* process.stderr.write(stderr) *)
| InfoPrinted (parsed : list Version.t).      (* console.info(JSON.parse(stdout)) *)

(** An array reference is an index into [heap]; [trace] has the latest event
    last. *)
Record World := {
  heap : list (list JsValue);
  trace : list Event;
}.

(** The arguments of the child processes run so far, in order. *)
Definition spawned (w : World) : list (list JsValue) :=
  omap (fun e => match e with Spawned args => Some args | _ => None end) (trace w).

(** How a call ends. [Unfinished] is the model's own: a loop ran out of the
    fuel it was given. *)
Inductive Completion (A : Type) :=
| Normal (a : A)
| Throw (e : Exception)
| Unfinished.
Arguments Normal {A} a.
Arguments Throw {A} e.
Arguments Unfinished {A}.

Definition M (A : Type) : Type := World -> Completion A * World.

Definition ret {A} (a : A) : M A := fun w => (Normal a, w).
Definition throw {A} (e : Exception) : M A := fun w => (Throw e, w).
Definition bind {A B} (m : M A) (k : A -> M B) : M B :=
  fun w =>
    match m w with
    | (Normal a, w') => k a w'
    | (Throw e, w') => (Throw e, w')
    | (Unfinished, w') => (Unfinished, w')
    end.

Declare Scope js_scope.
Delimit Scope js_scope with js.
Notation "x <- m ;; k" := (bind m (fun x => k))
  (at level 100, m at next level, right associativity) : js_scope.
Notation "m ;; k" := (bind m (fun _ => k))
  (at level 100, right associativity) : js_scope.
Local Open Scope js_scope.

Definition emit (e : Event) : M unit :=
  fun w => (Normal tt, {| heap := heap w; trace := trace w ++ [e] |}).

(** [log(m)]: calling [undefined] is a TypeError. *)
Definition call_log (log : option LogSink) (m : Message) : M unit :=
  match log with
  | Some sink => emit (Logged sink m)
  | None => throw (TypeError "log is not a function")
  end.

(** [childProcess.spawnSync('gcloud', args, {input: '', timeout})] *)
Definition spawnSync (h : Host) (args : list JsValue) : M SpawnSyncReturns :=
  fun w =>
    (Normal (gcloud h (length (spawned w)) args),
     {| heap := heap w; trace := trace w ++ [Spawned args] |}).

(** [JSON.parse(stdout)] *)
Definition JSON_parse (out : Stdout) : M (list Version.t) :=
  match out with
  | Json versions => ret versions
  | NotJson => throw SyntaxError
  end.

(** The elements of the array at [l]. *)
Definition read (l : nat) : M (list JsValue) :=
  fun w =>
    match heap w !! l with
    | Some a => (Normal a, w)
    | None => (Throw (TypeError "not an array"), w)
    end.

(** A new array with the elements [a]. *)
Definition alloc (a : list JsValue) : M nat :=
  fun w => (Normal (length (heap w)), {| heap := heap w ++ [a]; trace := trace w |}).

(** [versions.slice()]: a copy. *)
Definition slice (l : nat) : M nat := a <- read l ;; alloc a.

(** [versions.splice(0, n)]: removes the first [n] elements from the array
    itself and returns them. *)
Definition splice (l : nat) (n : nat) : M (list JsValue) :=
  a <- read l ;;
  fun w => (Normal (take n a), {| heap := <[l := drop n a]> (heap w); trace := trace w |}).

(** ** [parseInt]

    Leading white space, a sign, [0x] for base 16, then the longest run of
    digits, read as an integer and rounded to a double. Characters are
    bytes: the white space outside ASCII is not told apart. *)

Definition isWhiteSpace (c : ascii) : bool :=
  let n := nat_of_ascii c in
  (n =? 32)%nat || ((9 <=? n)%nat && (n <=? 13)%nat).

Fixpoint trimStart (s : string) : string :=
  match s with
  | String c s' => if isWhiteSpace c then trimStart s' else s
  | EmptyString => s
  end.

Definition digitValue (radix : Z) (c : ascii) : option Z :=
  let n := Z.of_nat (nat_of_ascii c) in
  let v :=
    if (48 <=? n) && (n <=? 57) then Some (n - 48)
    else if (97 <=? n) && (n <=? 122) then Some (n - 87)
    else if (65 <=? n) && (n <=? 90) then Some (n - 55)
    else None in
  d ← v; if d <? radix then Some d else None.

Fixpoint digitsValue (radix : Z) (s : string) (acc : option Z) : option Z :=
  match s with
  | String c s' =>
      match digitValue radix c with
      | Some d => digitsValue radix s' (Some (default 0 acc * radix + d))
      | None => acc
      end
  | EmptyString => acc
  end.

(** The double nearest to the integer [n], for [n] from 0 on: [n] itself
    below 2^53, and above it the nearest multiple of the spacing of the
    doubles at [n], the one with the even significand when two are as
    near. [None]: beyond the largest double. *)
Definition nearestDouble (n : Z) : option Z :=
  let e := Z.log2 n in
  if e <? 53 then Some n
  else
    let ulp := 2 ^ (e - 52) in
    let m := n / ulp in
    let r := n mod ulp in
    let up := (ulp <? 2 * r) || ((ulp =? 2 * r) && Z.odd m) in
    let rounded := (if up then m + 1 else m) * ulp in
    if rounded <? 2 ^ 1024 then Some rounded else None.

(** The Number value of the integer with the sign [negative] and the
    magnitude [n]. *)
Definition toDouble (negative : bool) (n : Z) : Double :=
  match nearestDouble n with
  | Some magnitude => Finite negative magnitude
  | None => Infinity negative
  end.

(** No digit: NaN. ECMA-262 lets an implementation read the decimal digits
    after the 20th as zeros; the exact integer is rounded here. *)
Definition parseInt (v : option string) : Double :=
  let s := trimStart (default "undefined" v) in
  let '(negative, s) :=
    match s with
    | String "-" s' => (true, s')
    | String "+" s' => (false, s')
    | _ => (false, s)
    end in
  let '(radix, s) :=
    match s with
    | String "0" (String "x" s') | String "0" (String "X" s') => (16, s')
    | _ => (10, s)
    end in
  match digitsValue radix s None with
  | None => NaN
  | Some n => toDouble negative n
  end.

(** [x || 0]: NaN and both zeros are falsy. *)
Definition orZero (x : Double) : Double :=
  match x with
  | NaN | Finite _ 0 => Finite false 0
  | _ => x
  end.

(** ** [fetchVersions] *)

Definition format_json : string :=
  "--format=" +:+ String "034" ("json" +:+ String "034" "").

(** The arguments of [gcloud] for listing the versions. *)
Definition listArguments (project service : JsValue) : list JsValue :=
  [JsString "app"; JsString "--project"; project; JsString "versions";
   JsString "list"; JsString "--service"; service; JsString format_json].

Definition fetchVersions (h : Host) (options : Options) : M (list Version.t) :=
  let '(_, project, service) := destructure options in
  r <- spawnSync h (listArguments project service) ;;
  if bool_decide (status r ≠ Some 0) then
    throw (Error (CouldNotListVersions (status r)))
  else JSON_parse (stdout r).

(** ** [deleteVersions] *)

(** The test of the [forEach] callback. *)
Definition badVersion (version : JsValue) : bool :=
  match version with
  | JsString s =>
      String.prefix "-" s || bool_decide (is_Some (String.index 0 "\" s))
  | _ => true
  end.

Fixpoint checkVersions (versions : list JsValue) : M unit :=
  match versions with
  | [] => ret tt
  | version :: rest =>
      if badVersion version then throw (Error (BadVersion version))
      else checkVersions rest
  end.

(** The arguments of [gcloud] for deleting the versions [next]. *)
Definition deleteArguments (project service : JsValue) (next : list JsValue)
  : list JsValue :=
  [JsString "app"; JsString "--project"; project; JsString "versions";
   JsString "delete"] ++ next
  ++ [JsString "--service"; service; JsString format_json].

(** The [while (versions.length)] loop; an iteration takes one unit of
    [fuel]. *)
Fixpoint deleteLoop (h : Host) (log : option LogSink) (project service : JsValue)
    (fuel : nat) (versions : nat) (done : Z) : M Z :=
  a <- read versions ;;
  match a, fuel with
  | [], _ => ret done
  | _ :: _, O => fun w => (Unfinished, w)
  | _ :: _, S fuel =>
      next <- splice versions deleteAtMost ;;
      call_log log (EnactingDeletion next) ;;
      r <- spawnSync h (deleteArguments project service next) ;;
      emit (StderrWritten (stderr r)) ;;
      if bool_decide (status r ≠ Some 0) then
        call_log log (CouldNotDelete (status r)) ;;
        ret done
      else
        let done := done + Z.of_nat (length next) in
        parsed <- JSON_parse (stdout r) ;;
        emit (InfoPrinted parsed) ;;
        deleteLoop h log project service fuel versions done
  end.

(** [versions] is a reference to the caller's array. The loop is given as
    much fuel as the array has elements. *)
Definition deleteVersions (h : Host) (options : Options) (versions : nat) : M Z :=
  let '(log, project, service) := destructure options in
  a <- read versions ;;
  checkVersions a ;;
  let done := 0 in
  versions <- slice versions ;;
  deleteLoop h log project service (length a) versions done.

(** ** [purgeOldVersionsFor] *)

(** The test that skips a version: unexpected results or anything serving
    traffic. *)
Definition skipped (project service : string) (v : Version.t) : bool :=
  bool_decide (Version.project v ≠ project)
  || bool_decide (Version.service v ≠ service)
  || negb (Qeq_bool (Version.traffic_split v) 0).

Definition candidateOf (v : Version.t) : Candidate.t :=
  {| Candidate.id := Version.id v;
     Candidate.usage := orZero (parseInt (Version.diskUsageBytes v));
     Candidate.lastDeployed := Version.last_deployed_time v |}.

(** The [for (const v of versions)] loop that fills [candidates]. *)
Fixpoint collectCandidates (project service : string) (versions : list Version.t)
  : list Candidate.t :=
  match versions with
  | [] => []
  | v :: rest =>
      if skipped project service v then collectCandidates project service rest
      else candidateOf v :: collectCandidates project service rest
  end.

(** The comparison function given to [sort]: [b - a]. *)
Definition compareFn (a b : Candidate.t) : Z :=
  Candidate.lastDeployed b - Candidate.lastDeployed a.

(** [Array.prototype.sort], which is stable: an insertion sort that moves an
    element behind another only when the comparison is positive. *)
Fixpoint sortInsert (x : Candidate.t) (l : list Candidate.t) : list Candidate.t :=
  match l with
  | [] => [x]
  | y :: l' => if 0 <? compareFn x y then y :: sortInsert x l' else x :: l
  end.

Definition sort (l : list Candidate.t) : list Candidate.t := foldr sortInsert [] l.

(** The date of the loop's [d]: [new Date(now)] set back by [i] days of the
    month. *)
Definition dayBefore (tz : Z -> bool -> Z) (now i : Z) : Z :=
  Date.setDate tz now (Date.getDate tz now - i).

(** [versionsForDays] as the [for] loop leaves it: a key for each [i] from 0
    below [keepDailyAmount], each with [null]. *)
Definition trackedDays (tz : Z -> bool -> Z) (now keepDailyAmount : Z)
  : gmap string (option string) :=
  foldl (fun m i => <[dayKey (dayBefore tz now i) := None]> m) ∅
        (seqZ 0 keepDailyAmount).

(** The two collections the [filter] callback writes to. *)
Record Kept := {
  versionsForDays : gmap string (option string);
  keptRecentVersions : list string;
}.

(** The [filter] callback: the collections after the call, the message it
    logs, and what it returns ([false]: safe from deletion). *)
Definition keepOrDelete (now keepMinimum : Z) (st : Kept) (c : Candidate.t)
  : Kept * Message * bool :=
  let id := Candidate.id c in
  let since := now - Candidate.lastDeployed c in
  let key := dayKey (Candidate.lastDeployed c) in
  if bool_decide (versionsForDays st !! key = Some None) then
    ({| versionsForDays := <[key := Some id]> (versionsForDays st);
        keptRecentVersions := keptRecentVersions st |},
     KeepingFor key id since, false)
  else if Z.of_nat (length (keptRecentVersions st)) <? keepMinimum then
    ({| versionsForDays := versionsForDays st;
        keptRecentVersions := keptRecentVersions st ++ [id] |},
     KeepingForRecent (length (keptRecentVersions st) + 1) id since, false)
  else (st, Deleting id since, true).

(** [candidates.filter(...)]: the callback on each element in turn. The
    result lists every element with the message and the answer of its call;
    the filtered array is made of the elements answered [true]. *)
Fixpoint filterCalls (now keepMinimum : Z) (st : Kept) (candidates : list Candidate.t)
  : list (Candidate.t * Message * bool) * Kept :=
  match candidates with
  | [] => ([], st)
  | c :: rest =>
      let '(st', m, b) := keepOrDelete now keepMinimum st c in
      let '(calls, st'') := filterCalls now keepMinimum st' rest in
      ((c, m, b) :: calls, st'')
  end.

Definition answered (b : bool) (calls : list (Candidate.t * Message * bool))
  : list Candidate.t :=
  omap (fun '(c, _, b') => if Bool.eqb b b' then Some c else None) calls.

(** What lines 127 to 184 compute from the fetched list. *)
Record Classification := {
  calls : list (Candidate.t * Message * bool);
  final : Kept;
}.

Definition classify (tz : Z -> bool -> Z) (now : Z) (project service : string)
    (keepDailyAmount keepMinimum : Z) (versions : list Version.t) : Classification :=
  let candidates := sort (collectCandidates project service versions) in
  let st := {| versionsForDays := trackedDays tz now keepDailyAmount;
               keptRecentVersions := [] |} in
  let '(calls, st) := filterCalls now keepMinimum st candidates in
  {| calls := calls; final := st |}.

(** The ids the callback kept safe, and the ids left in [candidates]. *)
Definition kept (r : Classification) : list string :=
  Candidate.id <$> answered false (calls r).
Definition candidatesForDeletion (r : Classification) : list string :=
  Candidate.id <$> answered true (calls r).

Fixpoint logAll (log : option LogSink) (messages : list Message) : M unit :=
  match messages with
  | [] => ret tt
  | m :: rest => call_log log m ;; logAll log rest
  end.

(** The function has no [return]: a call that does not throw gives
    [undefined]. Both helpers are handed [project] where they take the
    options; the third argument of [deleteVersions] has no parameter to
    go to. *)
Definition purgeOldVersionsFor (h : Host) (options : PurgeOptions.t) : M JsValue :=
  let now := clock h in
  let service := default "default" (PurgeOptions.service options) in
  let log := default ConsoleInfo (PurgeOptions.log options) in
  let project := PurgeOptions.project options in
  versions <- fetchVersions h (OptionsString project) ;;
  let keepDailyAmount := default keepDailyAmountDefault (PurgeOptions.keepDailyAmount options) in
  let keepMinimum := default keepMinimumDefault (PurgeOptions.keepMinimum options) in
  let r := classify (LocalTZA h) now project service keepDailyAmount keepMinimum versions in
  logAll (Some log) (snd ∘ fst <$> calls r) ;;
  let candidates := answered true (calls r) in
  ids <- alloc (JsString ∘ Candidate.id <$> candidates) ;;
  count <- deleteVersions h (OptionsString project) ids ;;
  if (0 <? Z.of_nat (length candidates)) && (count =? 0) then
    throw (Error (DeletedWithError count))
  else ret JsUndefined.

(** ** What the theorems speak of *)

(** A version in the scope of the run that serves no traffic. *)
Definition inScope (project service : string) (v : Version.t) : Prop :=
  Version.project v = project ∧ Version.service v = service
  ∧ (Version.traffic_split v == 0)%Q.

Global Instance inScope_dec project service v : Decision (inScope project service v).
Proof.
  unfold inScope.
  destruct (Qeq_dec (Version.traffic_split v) 0);
    [ | right; tauto ].
  destruct (decide (Version.project v = project)); [ | right; tauto ].
  destruct (decide (Version.service v = service)); [ left | right ]; tauto.
Defined.

(** The candidates the callback kept for the day [key], kept as recent, and
    did not keep for any day, each in the order of the calls. *)
Definition dayKeeps (key : string) (calls : list (Candidate.t * Message * bool))
  : list Candidate.t :=
  omap (fun '(c, m, _) =>
          match m with
          | KeepingFor key' _ _ => if decide (key' = key) then Some c else None
          | _ => None
          end) calls.

Definition recentKeeps (calls : list (Candidate.t * Message * bool))
  : list Candidate.t :=
  omap (fun '(c, m, _) =>
          match m with KeepingForRecent _ _ _ => Some c | _ => None end) calls.

Definition notDayKeeps (calls : list (Candidate.t * Message * bool))
  : list Candidate.t :=
  omap (fun '(c, m, _) =>
          match m with KeepingFor _ _ _ => None | _ => Some c end) calls.

(** The days for which the callback kept a candidate, in the order of the
    calls. *)
Definition daysKept (calls : list (Candidate.t * Message * bool)) : list string :=
  omap (fun '(_, m, _) =>
          match m with KeepingFor key _ _ => Some key | _ => None end) calls.

(** Most recent first. *)
Definition recentFirst (a b : Candidate.t) : Prop :=
  Candidate.lastDeployed b <= Candidate.lastDeployed a.

(** The [j]-th chunk of the ids, counting from 0, and the number of chunks
    of [n] ids: [n / deleteAtMost] rounded up. *)
Definition chunk (j : nat) (a : list JsValue) : list JsValue :=
  take deleteAtMost (drop (j * deleteAtMost) a).

Definition batches (n : nat) : nat := (n + (deleteAtMost - 1)) / deleteAtMost.

(** A delete call succeeds when the child exits with 0 and prints JSON, and
    fails when the status is anything else. *)
Definition succeeds (r : SpawnSyncReturns) : Prop :=
  status r = Some 0 ∧ stdout r ≠ NotJson.

Definition fails (r : SpawnSyncReturns) : Prop := status r ≠ Some 0.

(** An id that must not reach the command line: not a string, or a string
    that starts with a minus sign or has a backslash in it. *)
Definition unsafeId (version : JsValue) : Prop :=
  match version with
  | JsString s =>
      (∃ t, s = String "-" t) ∨ (∃ s1 s2, s = s1 +:+ String "\" s2)
  | _ => True
  end.

(** The policy of a run, after the defaults. *)
Definition classifyFor (h : Host) (options : PurgeOptions.t)
    (versions : list Version.t) : Classification :=
  classify (LocalTZA h) (clock h) (PurgeOptions.project options)
    (default "default" (PurgeOptions.service options))
    (default keepDailyAmountDefault (PurgeOptions.keepDailyAmount options))
    (default keepMinimumDefault (PurgeOptions.keepMinimum options))
    versions.

(** The check that [eraDay] undoes [dayOfEra] on one day of the era. *)
Definition eraRoundTrip (doe : Z) : bool :=
  let '(yoe, m, d) := Date.dayOfEra doe in
  (0 <=? yoe) && (yoe <? 400) && (1 <=? m) && (m <=? 12)
  && (Date.eraDay yoe m d =? doe).

(** A check of [f] on 0, 1, 2, ... in turn: the next number to check, and
    whether all checks passed. *)
Definition checkNext (f : Z → bool) (st : Z * bool) : Z * bool :=
  (st.1 + 1, st.2 && f st.1).

(** The day of a candidate. *)
Definition keyOf (c : Candidate.t) : string := dayKey (Candidate.lastDeployed c).

(** The world after an event, and after a write to an array. *)
Definition logged (w : World) (e : Event) : World :=
  {| heap := heap w; trace := trace w ++ [e] |}.

Definition stored (w : World) (l : nat) (a : list JsValue) : World :=
  {| heap := <[l := a]> (heap w); trace := trace w |}.

(** The world in which the loop starts: the copy is the newest array. *)
Definition copied (w : World) (a : list JsValue) : World :=
  {| heap := heap w ++ [a]; trace := trace w |}.

(** What one call of the callback may give for the candidate [c]: one of
    the three messages, about [c], with the answer that goes with it. *)
Definition verdict (now : Z) (call : Candidate.t * Message * bool) : Prop :=
  let '(c, m, b) := call in
  let id := Candidate.id c in
  let since := now - Candidate.lastDeployed c in
  (m = KeepingFor (keyOf c) id since ∧ b = false)
  ∨ (∃ n, m = KeepingForRecent n id since ∧ b = false)
  ∨ (m = Deleting id since ∧ b = true).

(** The numbers in the messages "Keeping for recent [n]", in the order of
    the calls. *)
Definition recentNumbers (calls : list (Candidate.t * Message * bool)) : list nat :=
  omap (fun '(_, m, _) =>
          match m with KeepingForRecent n _ _ => Some n | _ => None end) calls.

(** The version [v] with another [diskUsageBytes], and two candidates that
    differ in [usage] at most. *)
Definition withDiskUsage (f : Version.t → option string) (v : Version.t) : Version.t :=
  {| Version.id := Version.id v;
     Version.project := Version.project v;
     Version.service := Version.service v;
     Version.traffic_split := Version.traffic_split v;
     Version.diskUsageBytes := f v;
     Version.last_deployed_time := Version.last_deployed_time v |}.

Definition sameButUsage (c c' : Candidate.t) : Prop :=
  Candidate.id c = Candidate.id c'
  ∧ Candidate.lastDeployed c = Candidate.lastDeployed c'.

(** A string of decimal digits: its value and its length. *)
Inductive Digits : string → Z → nat → Prop :=
| Digits_nil : Digits "" 0 0
| Digits_cons d s v L :
    0 <= d < 10 → Digits s v L →
    Digits (String (Date.digit d) s) (d * 10 ^ Z.of_nat L + v) (S L).




(** ** [run.js] *)

(** What the script prints itself, and what happens within the function it
    calls. *)
Inductive Output :=
| Warned (line : string)              (* console.warn(line) *)
| Informed (values : list JsValue)    (* console.info(a, b, ...) *)
| Within (e : Event).

(** How the process ends: [process.exit(code)], the end of the script, or
    an exception that nothing catches. [Unended] is the model's own, for a
    call that is [Unfinished]. *)
Inductive Ending :=
| Exited (code : Z)
| EndOfScript
| Uncaught (e : Exception)
| Unended.

(** The usage line, with [process.argv[1]] in it. *)
Definition usage (argv : list string) : string :=
  "usage: " +:+ default "undefined" (argv !! 1%nat) +:+ " <project-id>".

(** The script, for the function [purgeGcloudApp] that it imports from
    [./index.js]; [argv] is [process.argv]. The options are [{project}], and
    the call starts in a world with no array and no event. *)
Definition run_js (purgeGcloudApp : PurgeOptions.t → M JsValue) (argv : list string)
  : list Output * Ending :=
  match argv with
  | [_; _; project] =>
      let announced :=
        [Informed [JsString "Deleting old versions for"; JsString project]] in
      let options :=
        {| PurgeOptions.project := project;
           PurgeOptions.service := None;
           PurgeOptions.keepMinimum := None;
           PurgeOptions.keepDailyAmount := None;
           PurgeOptions.log := None |} in
      match purgeGcloudApp options {| heap := []; trace := [] |} with
      | (Normal deletedVersionCount, w) =>
          (announced ++ (Within <$> trace w)
             ++ [Informed [JsString "Deleted"; deletedVersionCount; JsString "versions"]],
           EndOfScript)
      | (Throw e, w) => (announced ++ (Within <$> trace w), Uncaught e)
      | (Unfinished, w) => (announced ++ (Within <$> trace w), Unended)
      end
  | _ => ([Warned (usage argv)], Exited 1)
  end.

(** * Sample inputs *)

(** A host on UTC. *)
Definition utc : Z → bool → Z := fun _ _ => 0.

(** 2020-03-29T00:00:00Z, and an hour. *)
Definition march29 : Z := 1585440000000.
Definition hour : Z := 3600000.

(** A host on London time in 2020: an hour ahead of UTC from 29 March,
    01:00 UTC, to 25 October, 01:00 UTC. A local time that the clocks skip
    or repeat is read with the offset before the change. *)
Definition london2020 : Z → bool → Z := fun t isUTC =>
  let u := if isUTC then t else t - hour in
  if (march29 + hour <=? u) && (u <? 1603587600000) then hour else 0.

Definition deployed (id service : string) (split : Q) (time : Z) : Version.t :=
  {| Version.id := id;
     Version.project := "shop";
     Version.service := service;
     Version.traffic_split := split;
     Version.diskUsageBytes := Some "1024";
     Version.last_deployed_time := time |}.

(** Three versions of one day, at 09:00, 12:00 and 15:00, among a version
    that serves traffic and one of another service. *)
Definition sameDay : list Version.t :=
  [ deployed "nine" "default" 0 (march29 + 9 * hour);
    deployed "live" "default" 1 (march29 + 10 * hour);
    deployed "fifteen" "default" 0 (march29 + 15 * hour);
    deployed "other" "api" 0 (march29 + 11 * hour);
    deployed "twelve" "default" 0 (march29 + 12 * hour) ].

(** Five versions out of use, a month old. *)
Definition fiveOld : list Version.t :=
  [ deployed "a" "default" 0 (march29 - 30 * 24 * hour);
    deployed "b" "default" 0 (march29 - 31 * 24 * hour);
    deployed "c" "default" 0 (march29 - 32 * 24 * hour);
    deployed "d" "default" 0 (march29 - 33 * 24 * hour);
    deployed "e" "default" 0 (march29 - 34 * 24 * hour) ].

Definition nineIds : list JsValue :=
  JsString <$> ["a"; "b"; "c"; "d"; "e"; "f"; "g"; "h"; "i"].

(** A [gcloud] that lists [versions], then deletes: the child processes
    numbered below [failing] exit with 0, the others with 1. *)
Definition gcloudListing (versions : list Version.t) (failing : nat)
    (n : nat) (args : list JsValue) : SpawnSyncReturns :=
  {| status := if (n <? failing)%nat then Some 0 else Some 1;
     stdout := match n with O => Json versions | S _ => Json [] end;
     stderr := "" |}.

Definition hostListing (versions : list Version.t) (failing : nat) : Host :=
  {| LocalTZA := utc; clock := march29 + 16 * hour;
     gcloud := gcloudListing versions failing |}.

(** A host whose delete calls exit with 0 and print nothing that is JSON. *)
Definition hostSilent : Host :=
  {| LocalTZA := utc; clock := march29 + 16 * hour;
     gcloud := fun n _ =>
       {| status := Some 0;
          stdout := match n with O => Json [] | S _ => NotJson end;
          stderr := "" |} |}.

Definition onlyProject (project : string) : PurgeOptions.t :=
  {| PurgeOptions.project := project;
     PurgeOptions.service := None;
     PurgeOptions.keepMinimum := None;
     PurgeOptions.keepDailyAmount := None;
     PurgeOptions.log := None |}.


(** The options with every property present, as the defaults fill them. *)
Definition allOptions : PurgeOptions.t :=
  {| PurgeOptions.project := "shop";
     PurgeOptions.service := Some "default";
     PurgeOptions.keepMinimum := Some 0;
     PurgeOptions.keepDailyAmount := Some 0;
     PurgeOptions.log := Some ConsoleInfo |}.

Definition noWorld : World := {| heap := []; trace := [] |}.

(** 2020-10-25T00:00:00Z, the day the clocks of London went back, and a
    version deployed at noon of that day. *)
Definition october25 : Z := 1603584000000.

Definition yesterday : Version.t :=
  deployed "yesterday" "default" 0 (october25 + 12 * hour).

(** A host in London at 2020-10-26T00:30:00Z, half an hour into the next
    day, whose [gcloud] lists that version. *)
Definition hostLondon : Host :=
  {| LocalTZA := london2020; clock := october25 + 24 * hour + hour / 2;
     gcloud := gcloudListing [yesterday] 1 |}.

(** A version for each of the past two days, and no other. *)
Definition twoDays : PurgeOptions.t :=
  {| PurgeOptions.project := "shop";
     PurgeOptions.service := None;
     PurgeOptions.keepMinimum := Some 0;
     PurgeOptions.keepDailyAmount := Some 2;
     PurgeOptions.log := None |}.

(** A world with one array, and the listing already run. *)
Definition listedWorld (ids : list JsValue) : World :=
  {| heap := [ids];
     trace := [Spawned (listArguments (JsString "shop") (JsString "default"))] |}.


(** * Theorems *)

(** ** The calendar *)

Lemma checked_below (f : Z → bool) n i :
  Pos.iter (checkNext f) (0, true) n = (i, true) →
  ∀ j, 0 <= j < i → f j = true.
Proof.
  intros H.
  assert (Hinv : (fun st : Z * bool =>
                    0 <= st.1 ∧ (st.2 = true → ∀ j, 0 <= j < st.1 → f j = true))
                   (Pos.iter (checkNext f) (0, true) n)).
  { apply Pos.iter_invariant.
    - intros [k ok] [Hk Hinv]. cbn in *. split; [ lia | ].
      intros [Hok Hf]%andb_true_iff j Hj.
      destruct (decide (j = k)) as [ -> | ]; [ done | apply Hinv; [ done | lia ] ].
    - cbn. split; [ lia | intros _ j Hj; lia ]. }
  rewrite H in Hinv. cbn in Hinv. by apply Hinv.
Qed.

(** Every day of an era, checked one by one. *)
Lemma era_round_trips :
  Pos.iter (checkNext eraRoundTrip) (0, true) 146097 = (146097, true).
Proof. vm_cast_no_check (eq_refl (146097, true)). Qed.

Lemma dayOfEra_eraDay doe yoe m d :
  0 <= doe < 146097 →
  Date.dayOfEra doe = (yoe, m, d) →
  0 <= yoe < 400 ∧ 1 <= m <= 12 ∧ Date.eraDay yoe m d = doe.
Proof.
  intros Hdoe E.
  pose proof (checked_below _ _ _ era_round_trips doe Hdoe) as H.
  unfold eraRoundTrip in H. rewrite E in H.
  rewrite !andb_true_iff in H. lia.
Qed.

(** [MakeDay] on the year and the month of a day gives the first of that
    month; the date then counts on from it. *)
Lemma MakeDay_civil days date :
  Date.MakeDay (Date.civil days).1.1 ((Date.civil days).1.2 - 1) date
  = days - (Date.civil days).2 + date.
Proof.
  unfold Date.civil.
  set (z := days + 719468). set (era := z / 146097).
  destruct (Date.dayOfEra (z - era * 146097)) as [[yoe m] d] eqn:E.
  apply dayOfEra_eraDay in E as (Hyoe & Hm & Hday).
  2: { pose proof (Z.mod_pos_bound z 146097 ltac:(lia)) as Hmod.
       rewrite Z.mod_eq in Hmod by lia. unfold era. lia. }
  cbn [fst snd]. unfold Date.MakeDay.
  rewrite (Z.div_small (m - 1) 12), (Z.mod_small (m - 1) 12) by lia.
  replace (m - 1 + 1) with m by lia.
  set (year := if m <=? 2 then yoe + era * 400 + 1 else yoe + era * 400).
  assert (Hy : (if m <=? 2 then year + 0 - 1 else year + 0) = yoe + era * 400).
  { unfold year. destruct (m <=? 2); lia. }
  rewrite Hy, Z.div_add, (Z.div_small yoe 400) by lia.
  replace (yoe + era * 400 - (0 + era) * 400) with yoe by lia.
  assert (Hdate : Date.eraDay yoe m date = Date.eraDay yoe m d - d + date).
  { unfold Date.eraDay. lia. }
  rewrite Hdate, Hday. unfold z. lia.
Qed.

(** Setting the date back by [i] days of the month moves the local time
    back by [i] days. *)
Lemma setDate_back tz d i :
  Date.setDate tz d (Date.getDate tz d - i)
  = Date.UTC tz (Date.LocalTime tz d - i * Date.msPerDay).
Proof.
  unfold Date.setDate, Date.getDate.
  set (t := Date.LocalTime tz d).
  unfold Date.YearFromTime, Date.MonthFromTime, Date.DateFromTime.
  rewrite MakeDay_civil. f_equal.
  unfold Date.MakeDate, Date.Day, Date.TimeWithinDay, Date.msPerDay.
  pose proof (Z.div_mod t 86400000 ltac:(lia)). lia.
Qed.

Lemma Day_back t i : Date.Day (t - i * Date.msPerDay) = Date.Day t - i.
Proof.
  unfold Date.Day, Date.msPerDay.
  replace (t - i * 86400000) with (t + (- i) * 86400000) by lia.
  rewrite Z.div_add by lia. lia.
Qed.

Lemma length_pad width n acc :
  String.length (Date.pad width n acc) = (width + String.length acc)%nat.
Proof.
  revert n acc. induction width as [ | width IH ]; intros n acc; [ done | ].
  cbn [Date.pad]. rewrite IH. cbn. lia.
Qed.

Lemma length_append (s1 s2 : string) :
  String.length (s1 +:+ s2) = (String.length s1 + String.length s2)%nat.
Proof.
  induction s1 as [ | c s1 IH ]; [ done | ].
  change (String c s1 +:+ s2) with (String c (s1 +:+ s2)).
  cbn [String.length]. by rewrite IH.
Qed.

Lemma substring_append n (s1 s2 : string) :
  (n ≤ String.length s1)%nat →
  substring 0 n (s1 +:+ s2) = substring 0 n s1.
Proof.
  revert s1. induction n as [ | n IH ]; intros s1 Hn.
  - destruct s1; [ by destruct s2 | done ].
  - destruct s1 as [ | c s1 ]; cbn in Hn; [ lia | ].
    change (String c s1 +:+ s2) with (String c (s1 +:+ s2)).
    cbn [substring]. rewrite IH; [ done | lia ].
Qed.

Lemma length_dateText day : (10 ≤ String.length (Date.dateText day))%nat.
Proof.
  unfold Date.dateText. destruct (Date.civil day) as [[y m] d]. cbv zeta.
  destruct (_ && _); rewrite !length_append, !length_pad; cbn; lia.
Qed.

(** The key of a bucket is read off the UTC day alone. *)
Lemma dayKey_Day t : dayKey t = substr_0_10 (Date.dateText (Date.Day t)).
Proof.
  unfold dayKey, substr_0_10, Date.toISOString.
  apply substring_append, length_dateText.
Qed.

(** On a host whose offset from UTC does not change, the [i]-th day the
    loop tracks is the UTC day [i] days before that of [now]: the days
    tracked are the [keepDailyAmount] calendar days up to today. (Where the
    offset changes with the season, the day's length in between is not 24
    hours, and the key is that of [now] moved by the local days.) *)
Lemma tracked_days_are_trailing tz offset now i :
  (∀ t isUTC, tz t isUTC = offset) →
  dayBefore tz now i = now - i * Date.msPerDay
  ∧ Date.Day (dayBefore tz now i) = Date.Day now - i
  ∧ dayKey (dayBefore tz now i)
    = substr_0_10 (Date.dateText (Date.Day now - i)).
Proof.
  intros Htz.
  assert (H : dayBefore tz now i = now - i * Date.msPerDay).
  { unfold dayBefore. rewrite setDate_back.
    unfold Date.UTC, Date.LocalTime. rewrite !Htz. lia. }
  split; [ done | ]. rewrite dayKey_Day, H, Day_back. done.
Qed.

(** In London, at half past midnight of 30 March 2020, the day before is
    the day the clocks went forward: today and yesterday, 24 and 23 hours
    long, give the loop one UTC date twice, and two days tracked are one. *)
Example summer_time_tracks_a_day_twice :
  let now := march29 + 23 * hour + hour / 2 in
  Date.toISOString now = "2020-03-29T23:30:00.000Z"
  ∧ dayKey (dayBefore london2020 now 0) = "2020-03-29"
  ∧ dayKey (dayBefore london2020 now 1) = "2020-03-29"
  ∧ dayKey (dayBefore utc now 1) = "2020-03-28".
Proof. by vm_compute. Qed.

(** ** The candidates and their order *)

Lemma skipped_inScope project service v :
  skipped project service v = false ↔ inScope project service v.
Proof.
  unfold skipped, inScope.
  rewrite !orb_false_iff, negb_false_iff, Qeq_bool_iff, !bool_decide_eq_false.
  split; [ intros [[Hp Hs] Ht] | tauto ].
  repeat split; [ | | done ].
  - by destruct (decide (Version.project v = project)).
  - by destruct (decide (Version.service v = service)).
Qed.

Lemma collectCandidates_filter project service versions :
  collectCandidates project service versions
  = candidateOf <$> filter (inScope project service) versions.
Proof.
  induction versions as [ | v rest IH ]; [ done | ].
  cbn [collectCandidates]. rewrite filter_cons.
  destruct (skipped project service v) eqn:E.
  - rewrite decide_False; [ done | ].
    intros H. apply skipped_inScope in H. congruence.
  - rewrite decide_True by (by apply skipped_inScope).
    by rewrite fmap_cons, IH.
Qed.

Lemma sortInsert_Permutation x l : sortInsert x l ≡ₚ x :: l.
Proof.
  induction l as [ | y l IH ]; [ done | ].
  cbn [sortInsert]. destruct (0 <? compareFn x y); [ | done ].
  by rewrite IH, Permutation_swap.
Qed.

Lemma sort_Permutation l : sort l ≡ₚ l.
Proof.
  induction l as [ | x l IH ]; [ done | ].
  cbn [sort foldr]. fold (sort l). by rewrite sortInsert_Permutation, IH.
Qed.

Lemma sortInsert_sorted x l :
  StronglySorted recentFirst l → StronglySorted recentFirst (sortInsert x l).
Proof.
  intros H. induction H as [ | y l Hl IH Hy ]; cbn [sortInsert].
  - repeat constructor.
  - destruct (0 <? compareFn x y) eqn:E.
    + apply Z.ltb_lt in E. constructor; [ done | ].
      rewrite sortInsert_Permutation. constructor; [ | done ].
      unfold recentFirst, compareFn in *. lia.
    + apply Z.ltb_ge in E. constructor; [ by constructor | ].
      constructor; [ unfold recentFirst, compareFn in *; lia | ].
      eapply Forall_impl; [ exact Hy | ].
      unfold recentFirst, compareFn in *. intros; lia.
Qed.

Lemma sort_sorted l : StronglySorted recentFirst (sort l).
Proof.
  induction l as [ | x l IH ]; [ constructor | ].
  cbn [sort foldr]. by apply sortInsert_sorted.
Qed.

(** ** The filter callback *)

(** The three ways the callback ends. *)
Lemma keepOrDelete_cases now keepMinimum st c :
  let id := Candidate.id c in
  let since := now - Candidate.lastDeployed c in
  let key := dayKey (Candidate.lastDeployed c) in
  let recent := keptRecentVersions st in
  (versionsForDays st !! key = Some None
   ∧ keepOrDelete now keepMinimum st c
     = ({| versionsForDays := <[key := Some id]> (versionsForDays st);
           keptRecentVersions := recent |},
        KeepingFor key id since, false))
  ∨ (versionsForDays st !! key ≠ Some None
     ∧ Z.of_nat (length recent) < keepMinimum
     ∧ keepOrDelete now keepMinimum st c
       = ({| versionsForDays := versionsForDays st;
             keptRecentVersions := recent ++ [id] |},
          KeepingForRecent (length recent + 1) id since, false))
  ∨ (versionsForDays st !! key ≠ Some None
     ∧ keepMinimum <= Z.of_nat (length recent)
     ∧ keepOrDelete now keepMinimum st c = (st, Deleting id since, true)).
Proof.
  cbv zeta. unfold keepOrDelete.
  case_bool_decide as Hday; [ by left | right ].
  destruct (Z.ltb_spec (Z.of_nat (length (keptRecentVersions st))) keepMinimum);
    [ left | right ]; done.
Qed.

Lemma filterCalls_cons now keepMinimum st c rest :
  filterCalls now keepMinimum st (c :: rest)
  = let '(st', m, b) := keepOrDelete now keepMinimum st c in
    let '(calls, st'') := filterCalls now keepMinimum st' rest in
    ((c, m, b) :: calls, st'').
Proof. done. Qed.

Lemma filterCalls_app now keepMinimum st l1 l2 :
  filterCalls now keepMinimum st (l1 ++ l2)
  = let '(calls1, st1) := filterCalls now keepMinimum st l1 in
    let '(calls2, st2) := filterCalls now keepMinimum st1 l2 in
    (calls1 ++ calls2, st2).
Proof.
  revert st. induction l1 as [ | c l1 IH ]; intros st.
  - cbn. by destruct (filterCalls now keepMinimum st l2).
  - rewrite <- app_comm_cons, !filterCalls_cons.
    destruct (keepOrDelete now keepMinimum st c) as [[st' m] b].
    rewrite IH.
    destruct (filterCalls now keepMinimum st' l1) as [calls1 st1].
    by destruct (filterCalls now keepMinimum st1 l2).
Qed.

(** The callback is called once on each candidate, in order. *)
Lemma filterCalls_subjects now keepMinimum st candidates :
  (fst ∘ fst) <$> (filterCalls now keepMinimum st candidates).1 = candidates.
Proof.
  revert st. induction candidates as [ | c rest IH ]; intros st; [ done | ].
  rewrite filterCalls_cons.
  destruct (keepOrDelete now keepMinimum st c) as [[st' m] b].
  specialize (IH st').
  destruct (filterCalls now keepMinimum st' rest) as [calls st''].
  cbn in *. by rewrite IH.
Qed.

Lemma answered_Permutation (calls : list (Candidate.t * Message * bool)) :
  answered false calls ++ answered true calls ≡ₚ (fst ∘ fst) <$> calls.
Proof.
  induction calls as [ | [[c m] b] calls IH ]; [ done | ].
  unfold answered in *. cbn [omap list_omap fmap list_fmap].
  destruct b; cbn.
  - by rewrite <- Permutation_middle, IH.
  - by rewrite IH.
Qed.

Lemma classify_subjects tz now project service keepDailyAmount keepMinimum versions :
  (fst ∘ fst) <$> calls (classify tz now project service keepDailyAmount keepMinimum versions)
  = sort (collectCandidates project service versions).
Proof.
  unfold classify.
  match goal with
  | |- context [filterCalls ?n ?k ?st ?cs] =>
      pose proof (filterCalls_subjects n k st cs) as H;
      destruct (filterCalls n k st cs) as [cs' st']
  end.
  done.
Qed.

Lemma classify_ids tz now project service keepDailyAmount keepMinimum versions :
  let r := classify tz now project service keepDailyAmount keepMinimum versions in
  kept r ++ candidatesForDeletion r
  ≡ₚ Version.id <$> filter (inScope project service) versions.
Proof.
  cbv zeta. unfold kept, candidatesForDeletion.
  rewrite <- fmap_app, answered_Permutation, classify_subjects.
  rewrite sort_Permutation, collectCandidates_filter, <- list_fmap_compose.
  done.
Qed.

(** C1. The classification splits the ids of the versions in scope that
    serve no traffic: [kept] and [candidatesForDeletion] together hold
    exactly those ids, as often as the list has them, so an id is in one of
    the two exactly when a version in scope with no traffic carries it, and
    a version out of scope or serving traffic adds nothing to either. Where
    those ids are distinct, as the ids of one service are, the two have no
    id in common. *)
Theorem classification_partitions tz now project service
    keepDailyAmount keepMinimum versions :
  let r := classify tz now project service keepDailyAmount keepMinimum versions in
  let expected := Version.id <$> filter (inScope project service) versions in
  kept r ++ candidatesForDeletion r ≡ₚ expected
  ∧ (NoDup expected →
     NoDup (kept r ++ candidatesForDeletion r)
     ∧ ∀ id, id ∈ kept r → id ∈ candidatesForDeletion r → False)
  ∧ (∀ id, (id ∈ kept r ∨ id ∈ candidatesForDeletion r)
           ↔ (∃ v, v ∈ versions ∧ inScope project service v ∧ Version.id v = id))
  ∧ (∀ v, v ∈ versions → ¬ inScope project service v →
          (Version.id v ∉ expected) →
          (Version.id v ∉ kept r) ∧ (Version.id v ∉ candidatesForDeletion r)).
Proof.
  intros r expected.
  pose proof (classify_ids tz now project service keepDailyAmount keepMinimum versions)
    as Hperm.
  fold r expected in Hperm.
  assert (Hmem : ∀ id, id ∈ kept r ∨ id ∈ candidatesForDeletion r ↔ id ∈ expected).
  { intros id. by rewrite <- Hperm, elem_of_app. }
  split; [ done | ]. split; [ | split ].
  - intros Hnodup. rewrite <- Hperm in Hnodup. split; [ done | ].
    intros id Hk Hc.
    apply NoDup_app in Hnodup as (_ & Hdisj & _). by apply (Hdisj id).
  - intros id. rewrite Hmem. unfold expected.
    rewrite list_elem_of_fmap. split.
    + intros (v & -> & Hv). apply list_elem_of_filter in Hv as [Hs Hv]. eauto.
    + intros (v & Hv & Hs & <-). exists v. by rewrite list_elem_of_filter.
  - intros v _ _ Hid. split; intros H; apply Hid, Hmem; tauto.
Qed.

(** ** The day buckets *)

Lemma tracking_keeps_null (f : Z → string) l (m0 : gmap string (option string)) k :
  m0 !! k = Some None →
  foldl (fun m i => <[f i := None]> m) m0 l !! k = Some None.
Proof.
  revert m0. induction l as [ | j l IH ]; intros m0 H; [ done | ].
  cbn [foldl]. apply IH.
  destruct (decide (f j = k)) as [ -> | Hne ].
  - by rewrite lookup_insert_eq.
  - by rewrite lookup_insert_ne.
Qed.

Lemma tracking_hit (f : Z → string) l (m0 : gmap string (option string)) i :
  i ∈ l → foldl (fun m i => <[f i := None]> m) m0 l !! f i = Some None.
Proof.
  revert m0. induction l as [ | j l IH ]; intros m0 H.
  - by apply elem_of_nil in H.
  - cbn [foldl]. apply elem_of_cons in H as [ -> | H ]; [ | by apply IH ].
    apply tracking_keeps_null. by rewrite lookup_insert_eq.
Qed.

Lemma tracking_miss (f : Z → string) l (m0 : gmap string (option string)) k :
  (∀ i, i ∈ l → f i ≠ k) →
  foldl (fun m i => <[f i := None]> m) m0 l !! k = m0 !! k.
Proof.
  revert m0. induction l as [ | j l IH ]; intros m0 H; [ done | ].
  cbn [foldl]. rewrite IH.
  - apply lookup_insert_ne, H, elem_of_cons. by left.
  - intros i Hi. apply H, elem_of_cons. by right.
Qed.

(** The loop leaves the key of each of its days in the map, with [null]. *)
Lemma trackedDays_tracked tz now keepDailyAmount i :
  0 <= i < keepDailyAmount →
  trackedDays tz now keepDailyAmount !! dayKey (dayBefore tz now i) = Some None.
Proof.
  intros Hi. unfold trackedDays.
  apply (tracking_hit (fun i => dayKey (dayBefore tz now i))).
  apply elem_of_seqZ. lia.
Qed.

(** And nothing else. *)
Lemma trackedDays_only tz now keepDailyAmount k v :
  trackedDays tz now keepDailyAmount !! k = Some v →
  v = None ∧ ∃ i, 0 <= i < keepDailyAmount ∧ k = dayKey (dayBefore tz now i).
Proof.
  unfold trackedDays. intros H.
  destruct (decide (Exists (fun i => dayKey (dayBefore tz now i) = k)
                           (seqZ 0 keepDailyAmount))) as [ Hex | Hno ].
  - apply Exists_exists in Hex as (i & Hi & <-).
    rewrite (tracking_hit (fun i => dayKey (dayBefore tz now i))) in H by done.
    split; [ congruence | ]. exists i. apply elem_of_seqZ in Hi. split; [ lia | done ].
  - rewrite (tracking_miss (fun i => dayKey (dayBefore tz now i))) in H.
    + by rewrite lookup_empty in H.
    + intros i Hi Hk. apply Hno, Exists_exists. eauto.
Qed.

(** How one call of the callback bears on the bucket [k]: it fills it when
    it is unfilled and the candidate is of that day, and leaves it alone
    otherwise. *)
Lemma keepOrDelete_day now keepMinimum st c k st' m b :
  keepOrDelete now keepMinimum st c = (st', m, b) →
  (versionsForDays st !! k = Some None ∧ keyOf c = k
   ∧ m = KeepingFor k (Candidate.id c) (now - Candidate.lastDeployed c)
   ∧ b = false
   ∧ versionsForDays st' !! k = Some (Some (Candidate.id c)))
  ∨ (¬ (versionsForDays st !! k = Some None ∧ keyOf c = k)
     ∧ dayKeeps k [(c, m, b)] = []
     ∧ versionsForDays st' !! k = versionsForDays st !! k).
Proof.
  intros H. unfold keyOf.
  destruct (keepOrDelete_cases now keepMinimum st c)
    as [ (Hday & E) | [ (Hday & _ & E) | (Hday & _ & E) ] ];
    rewrite E in H; inversion H; subst; clear H; cbn.
  - destruct (decide (dayKey (Candidate.lastDeployed c) = k)) as [ <- | Hne ].
    + left. by rewrite lookup_insert_eq.
    + right. rewrite lookup_insert_ne by done. tauto.
  - right. split; [ | done ]. intros [Hk <-]. done.
  - right. split; [ | done ]. intros [Hk <-]. done.
Qed.

Lemma dayKeeps_cons k call calls :
  dayKeeps k (call :: calls) = dayKeeps k [call] ++ dayKeeps k calls.
Proof. change (call :: calls) with ([call] ++ calls). apply omap_app. Qed.

(** Where a list has a candidate of the day [k], it has a first one. *)
Lemma first_of_day k (candidates : list Candidate.t) c0 :
  c0 ∈ candidates → keyOf c0 = k →
  ∃ before c after,
    candidates = before ++ c :: after
    ∧ keyOf c = k
    ∧ Forall (fun c' => keyOf c' ≠ k) before.
Proof.
  intros Hin Hk.
  destruct (list_find_elem_of (fun c => keyOf c = k) candidates c0 Hin Hk)
    as [[n c] Hfind].
  apply list_find_Some in Hfind as (Hn & Hc & Hfirst).
  exists (take n candidates), c, (drop (S n) candidates).
  split; [ by rewrite take_drop_middle | ]. split; [ done | ].
  apply Forall_forall. intros c' Hc'.
  apply list_elem_of_lookup in Hc' as [j Hj].
  pose proof (lookup_lt_Some _ _ _ Hj) as Hlt. rewrite length_take in Hlt.
  rewrite lookup_take_lt in Hj by lia. apply (Hfirst j); [ done | lia ].
Qed.

(** Candidates of other days, or a bucket that is not unfilled: nothing is
    kept for [k] and the bucket stays as it is. *)
Lemma filterCalls_day_idle now keepMinimum k candidates st calls st' :
  versionsForDays st !! k ≠ Some None ∨ Forall (fun c => keyOf c ≠ k) candidates →
  filterCalls now keepMinimum st candidates = (calls, st') →
  dayKeeps k calls = [] ∧ versionsForDays st' !! k = versionsForDays st !! k.
Proof.
  revert st calls st'.
  induction candidates as [ | c rest IH ]; intros st calls st' Hidle H.
  - by inversion H.
  - rewrite filterCalls_cons in H.
    destruct (keepOrDelete now keepMinimum st c) as [[st1 m] b] eqn:E.
    destruct (filterCalls now keepMinimum st1 rest) as [calls1 st2] eqn:E1.
    inversion H; subst; clear H.
    apply (keepOrDelete_day _ _ _ _ k) in E
      as [ (Hk & Hc & _) | (_ & Hnone & Hsame) ].
    + destruct Hidle as [ Hidle | Hidle ]; [ done | ].
      by apply Forall_cons in Hidle as [Hidle _].
    + rewrite dayKeeps_cons, Hnone, <- Hsame.
      apply (IH st1); [ | done ].
      destruct Hidle as [ Hidle | Hidle ]; [ left; congruence | right ].
      by apply Forall_cons in Hidle as [_ Hidle].
Qed.

(** The first candidate of the day [k] fills the unfilled bucket, and is the
    only one kept for [k]. *)
Lemma filterCalls_day_first now keepMinimum k before c after st calls st' :
  versionsForDays st !! k = Some None →
  Forall (fun c => keyOf c ≠ k) before →
  keyOf c = k →
  filterCalls now keepMinimum st (before ++ c :: after) = (calls, st') →
  dayKeeps k calls = [c]
  ∧ versionsForDays st' !! k = Some (Some (Candidate.id c))
  ∧ calls !! length before
    = Some (c, KeepingFor k (Candidate.id c) (now - Candidate.lastDeployed c), false).
Proof.
  intros Hk Hbefore Hc H.
  rewrite filterCalls_app in H.
  destruct (filterCalls now keepMinimum st before) as [calls1 st1] eqn:E1.
  rewrite filterCalls_cons in H.
  destruct (keepOrDelete now keepMinimum st1 c) as [[st2 m] b] eqn:E2.
  destruct (filterCalls now keepMinimum st2 after) as [calls3 st3] eqn:E3.
  inversion H; subst calls st'; clear H.
  pose proof (filterCalls_subjects now keepMinimum st before) as Hlen.
  rewrite E1 in Hlen. apply (f_equal length) in Hlen. rewrite length_fmap in Hlen.
  cbn in Hlen.
  apply (filterCalls_day_idle _ _ k) in E1 as [Hnone1 Hsame1]; [ | by right ].
  apply (keepOrDelete_day _ _ _ _ k) in E2
    as [ (_ & _ & -> & -> & Hfilled) | (Hnot & _) ];
    [ | rewrite Hsame1 in Hnot; tauto ].
  apply (filterCalls_day_idle _ _ k) in E3 as [Hnone3 Hsame3];
    [ | left; congruence ].
  unfold dayKeeps in *. rewrite omap_app, Hnone1. cbn [omap list_omap].
  rewrite decide_True by done. rewrite Hnone3, Hsame3, Hfilled.
  split; [ done | ]. split; [ done | ].
  rewrite lookup_app_r by lia. by rewrite Hlen, Nat.sub_diag.
Qed.

(** Whatever the day, the callback keeps at most one candidate for it. *)
Lemma dayKeeps_at_most_one now keepMinimum k candidates st calls st' :
  filterCalls now keepMinimum st candidates = (calls, st') →
  (length (dayKeeps k calls) ≤ 1)%nat.
Proof.
  intros H.
  destruct (decide (versionsForDays st !! k = Some None)) as [ Hk | Hk ];
    [ | apply (filterCalls_day_idle _ _ k) in H as [-> _]; [ cbn; lia | by left ] ].
  destruct (decide (Exists (fun c => keyOf c = k) candidates)) as [ Hex | Hno ].
  - apply Exists_exists in Hex as (c0 & Hc0 & Hk0).
    destruct (first_of_day k candidates c0 Hc0 Hk0)
      as (before & c & after & -> & Hc & Hbefore).
    apply (filterCalls_day_first _ _ k) in H as (-> & _); [ cbn; lia | done .. ].
  - apply not_Exists_Forall in Hno; [ | apply _ ].
    apply (filterCalls_day_idle _ _ k) in H as [-> _]; [ cbn; lia | by right ].
Qed.

Lemma classify_filterCalls tz now project service keepDailyAmount keepMinimum versions :
  let r := classify tz now project service keepDailyAmount keepMinimum versions in
  filterCalls now keepMinimum
    {| versionsForDays := trackedDays tz now keepDailyAmount;
       keptRecentVersions := [] |}
    (sort (collectCandidates project service versions))
  = (calls r, final r).
Proof. cbv zeta. unfold classify. by destruct (filterCalls _ _ _ _). Qed.

(** No day is kept for twice, and a day kept for was an unfilled bucket. *)
Lemma filterCalls_daysKept now keepMinimum candidates st calls st' :
  filterCalls now keepMinimum st candidates = (calls, st') →
  NoDup (daysKept calls)
  ∧ ∀ k, k ∈ daysKept calls → versionsForDays st !! k = Some None.
Proof.
  revert st calls st'.
  induction candidates as [ | c rest IH ]; intros st calls st' H.
  - inversion H; subst. split; [ constructor | ]. intros k Hk. by apply elem_of_nil in Hk.
  - rewrite filterCalls_cons in H.
    destruct (keepOrDelete now keepMinimum st c) as [[st1 m] b] eqn:E.
    destruct (filterCalls now keepMinimum st1 rest) as [calls1 st2] eqn:E1.
    injection H as <- <-. apply IH in E1 as [Hnodup Hunfilled].
    destruct (keepOrDelete_cases now keepMinimum st c)
      as [ (Hday & E') | [ (_ & _ & E') | (_ & _ & E') ] ];
      rewrite E' in E; injection E as Hst Hm Hb; subst st1 m b;
      unfold daysKept in *; cbn [omap list_omap] in *;
      cbn [versionsForDays] in *; [ | done .. ].
    set (key := dayKey (Candidate.lastDeployed c)) in *.
    split.
    + constructor; [ | done ]. intros Hin. apply Hunfilled in Hin.
      by rewrite lookup_insert_eq in Hin.
    + intros k [ -> | Hin ]%elem_of_cons; [ done | ].
      pose proof (Hunfilled k Hin) as Hk.
      destruct (decide (key = k)) as [ <- | Hne ].
      * by rewrite lookup_insert_eq in Hk.
      * by rewrite lookup_insert_ne in Hk.
Qed.

(** All in all no more than [keepDailyAmount] versions are kept for their
    day. *)
Lemma at_most_keepDailyAmount_days tz now project service
    keepDailyAmount keepMinimum versions :
  let r := classify tz now project service keepDailyAmount keepMinimum versions in
  (length (daysKept (calls r)) ≤ Z.to_nat keepDailyAmount)%nat.
Proof.
  cbv zeta.
  pose proof (classify_filterCalls tz now project service keepDailyAmount
                keepMinimum versions) as Hcalls.
  cbv zeta in Hcalls.
  apply filterCalls_daysKept in Hcalls as [Hnodup Hunfilled].
  cbn [versionsForDays] in Hunfilled.
  rewrite <- (length_seqZ 0 keepDailyAmount),
    <- (length_fmap (fun i => dayKey (dayBefore tz now i))).
  apply submseteq_length, NoDup_submseteq; [ done | ].
  intros k Hk. apply Hunfilled, trackedDays_only in Hk as (_ & i & Hi & ->).
  apply list_elem_of_fmap. exists i. split; [ done | ].
  apply elem_of_seqZ. lia.
Qed.

Lemma elem_of_candidates project service versions c :
  c ∈ sort (collectCandidates project service versions)
  ↔ ∃ v, v ∈ versions ∧ inScope project service v ∧ c = candidateOf v.
Proof.
  rewrite sort_Permutation, collectCandidates_filter, list_elem_of_fmap.
  split.
  - intros (v & -> & Hv). apply list_elem_of_filter in Hv as [Hs Hv]. eauto.
  - intros (v & Hv & Hs & ->). exists v. by rewrite list_elem_of_filter.
Qed.

Lemma answered_lookup (calls : list (Candidate.t * Message * bool)) i c m b :
  calls !! i = Some (c, m, b) → c ∈ answered b calls.
Proof.
  intros H. unfold answered. apply list_elem_of_omap. exists (c, m, b).
  split; [ by eapply list_elem_of_lookup_2 | ].
  cbn. by rewrite Bool.eqb_reflx.
Qed.

(** The day rule on the keys the loop computes: no more than
    [keepDailyAmount] versions are kept for their day, and no day protects
    more than one version; when a version in scope that serves no traffic
    was deployed on a day whose key the loop has set (the [i]-th, for [i]
    from 0 below [keepDailyAmount]), exactly one version is kept for that
    day: one of that day, deployed no earlier than any other of that day,
    whose id the bucket then holds. Which days those keys are is another
    matter: they are the trailing calendar days where the offset from UTC
    does not change ([tracked_days_are_trailing]), and need not be where
    it does. *)
Theorem one_survivor_per_tracked_day tz now project service
    keepDailyAmount keepMinimum versions i :
  0 <= i < keepDailyAmount →
  let key := dayKey (dayBefore tz now i) in
  let r := classify tz now project service keepDailyAmount keepMinimum versions in
  let onDay v :=
    inScope project service v ∧ dayKey (Version.last_deployed_time v) = key in
  (length (daysKept (calls r)) ≤ Z.to_nat keepDailyAmount)%nat
  ∧ (∀ day, length (dayKeeps day (calls r)) ≤ 1)%nat
  ∧ (∀ v, v ∈ versions → onDay v →
       ∃ v', v' ∈ versions ∧ onDay v'
         ∧ dayKeeps key (calls r) = [candidateOf v']
         ∧ (∀ u, u ∈ versions → onDay u →
              Version.last_deployed_time u <= Version.last_deployed_time v')
         ∧ Version.id v' ∈ kept r
         ∧ versionsForDays (final r) !! key = Some (Some (Version.id v'))).
Proof.
  intros Hi key r onDay.
  split; [ apply at_most_keepDailyAmount_days | ].
  pose proof (classify_filterCalls tz now project service keepDailyAmount
                keepMinimum versions) as Hcalls.
  fold r in Hcalls. cbv zeta in Hcalls.
  split; [ intros day; by eapply dayKeeps_at_most_one | ].
  pose proof (trackedDays_tracked tz now keepDailyAmount i Hi) as Htracked.
  fold key in Htracked.
  set (cs := sort (collectCandidates project service versions)) in *.
  intros v Hv [Hvs Hvk].
  assert (Hvin : candidateOf v ∈ cs) by (apply elem_of_candidates; eauto).
  destruct (first_of_day key cs _ Hvin Hvk)
    as (before & c & after & Hsplit & Hc & Hbefore).
  symmetry in Hsplit.
  rewrite <- Hsplit in Hcalls.
  apply (filterCalls_day_first _ _ key) in Hcalls as (Hkeeps & Hbucket & Hcall);
    [ | done .. ].
  assert (Hcin : c ∈ cs).
  { rewrite <- Hsplit. apply elem_of_app. right. by left. }
  apply elem_of_candidates in Hcin as (v' & Hv' & Hs' & ->).
  exists v'. split; [ done | ]. split; [ by split | ].
  split; [ done | ]. split; [ | split; [ | done ] ].
  - intros u Hu [Hus Huk].
    assert (Huin : candidateOf u ∈ cs) by (apply elem_of_candidates; eauto).
    rewrite <- Hsplit in Huin.
    apply elem_of_app in Huin as [ Huin | Huin ].
    { rewrite Forall_forall in Hbefore. by destruct (Hbefore _ Huin). }
    apply elem_of_cons in Huin as [ Huin | Huin ].
    { apply (f_equal Candidate.lastDeployed) in Huin. cbn in Huin. lia. }
    pose proof (sort_sorted (collectCandidates project service versions)) as Hs.
    fold cs in Hs. rewrite <- Hsplit in Hs.
    apply StronglySorted_app_1_r, StronglySorted_cons in Hs as [Hall _].
    rewrite Forall_forall in Hall. apply (Hall _ Huin).
  - unfold kept. apply list_elem_of_fmap. exists (candidateOf v').
    split; [ done | ]. eapply answered_lookup, Hcall.
Qed.

(** ** The recent versions *)

(** [keptRecentVersions] grows by the candidates answered "keeping for
    recent", and those are the first of the candidates not kept for a day,
    as many as the count still allows. *)
Lemma filterCalls_recent now keepMinimum candidates st calls st' :
  filterCalls now keepMinimum st candidates = (calls, st') →
  keptRecentVersions st'
  = keptRecentVersions st ++ (Candidate.id <$> recentKeeps calls)
  ∧ recentKeeps calls
    = take (Z.to_nat keepMinimum - length (keptRecentVersions st))
           (notDayKeeps calls).
Proof.
  revert st calls st'.
  induction candidates as [ | c rest IH ]; intros st calls st' H.
  - inversion H; subst. cbn. by rewrite app_nil_r, take_nil.
  - rewrite filterCalls_cons in H.
    destruct (keepOrDelete now keepMinimum st c) as [[st1 m] b] eqn:E.
    destruct (filterCalls now keepMinimum st1 rest) as [calls1 st2] eqn:E1.
    inversion H; subst; clear H.
    apply IH in E1 as [Hkept Htake].
    destruct (keepOrDelete_cases now keepMinimum st c)
      as [ (_ & E') | [ (_ & Hlt & E') | (_ & Hge & E') ] ];
      rewrite E' in E; injection E as Hst Hm Hb; subst st1 m b; clear E';
      unfold recentKeeps, notDayKeeps in *; cbn [omap list_omap] in *;
      cbn [keptRecentVersions] in *.
    + done.
    + rewrite Hkept, Htake, length_app, <- app_assoc. cbn.
      split; [ done | ].
      replace (Z.to_nat keepMinimum - length (keptRecentVersions st))%nat
        with (S (Z.to_nat keepMinimum - (length (keptRecentVersions st) + 1)))%nat
        by lia.
      done.
    + rewrite Hkept, Htake.
      replace (Z.to_nat keepMinimum - length (keptRecentVersions st))%nat
        with 0%nat by lia.
      by rewrite !take_0.
Qed.

Lemma notDayKeeps_sublist (calls : list (Candidate.t * Message * bool)) :
  notDayKeeps calls `sublist_of` (fst ∘ fst) <$> calls.
Proof.
  induction calls as [ | [[c m] b] calls IH ]; [ done | ].
  unfold notDayKeeps in *. cbn [omap list_omap fmap list_fmap].
  destruct m; cbn; by constructor.
Qed.

Lemma recentKeeps_answered (calls : list (Candidate.t * Message * bool)) c :
  Forall (fun '(_, m, b) => b = match m with Deleting _ _ => true | _ => false end) calls →
  c ∈ recentKeeps calls → c ∈ answered false calls.
Proof.
  intros Hok Hc. unfold recentKeeps, answered in *.
  apply list_elem_of_omap in Hc as ([[c' m] b] & Hin & Hm).
  apply list_elem_of_omap. exists (c', m, b). split; [ done | ].
  rewrite Forall_forall in Hok. specialize (Hok _ Hin). cbn in Hok.
  destruct m; try done. inversion Hm; subst. done.
Qed.

(** The callback answers [true] exactly when it says "Deleting". *)
Lemma filterCalls_answers now keepMinimum candidates st :
  Forall (fun '(_, m, b) => b = match m with Deleting _ _ => true | _ => false end)
         (filterCalls now keepMinimum st candidates).1.
Proof.
  revert st. induction candidates as [ | c rest IH ]; intros st; [ constructor | ].
  rewrite filterCalls_cons.
  destruct (keepOrDelete now keepMinimum st c) as [[st1 m] b] eqn:E.
  specialize (IH st1).
  destruct (filterCalls now keepMinimum st1 rest) as [calls1 st2].
  constructor; [ | done ].
  destruct (keepOrDelete_cases now keepMinimum st c)
    as [ (_ & E') | [ (_ & _ & E') | (_ & _ & E') ] ];
    rewrite E' in E; by inversion E.
Qed.

(** C3. At most [keepMinimum] versions are kept as recent. The callback is
    called on the versions in scope that serve no traffic, most recent
    first; the versions kept as recent are the first [keepMinimum] of those
    calls that did not keep the version for a day, and their ids are what
    [keptRecentVersions] holds; all of them are in [kept]. *)
Theorem recent_versions_kept tz now project service
    keepDailyAmount keepMinimum versions :
  0 <= keepMinimum →
  let r := classify tz now project service keepDailyAmount keepMinimum versions in
  let called := (fst ∘ fst) <$> calls r in
  Z.of_nat (length (recentKeeps (calls r))) <= keepMinimum
  ∧ called ≡ₚ candidateOf <$> filter (inScope project service) versions
  ∧ StronglySorted recentFirst called
  ∧ notDayKeeps (calls r) `sublist_of` called
  ∧ recentKeeps (calls r) = take (Z.to_nat keepMinimum) (notDayKeeps (calls r))
  ∧ keptRecentVersions (final r) = Candidate.id <$> recentKeeps (calls r)
  ∧ (∀ c, c ∈ recentKeeps (calls r) → Candidate.id c ∈ kept r).
Proof.
  intros Hmin r called.
  pose proof (classify_filterCalls tz now project service keepDailyAmount
                keepMinimum versions) as Hcalls.
  fold r in Hcalls. cbv zeta in Hcalls.
  pose proof (filterCalls_recent _ _ _ _ _ _ Hcalls) as [Hkept Htake].
  cbn [keptRecentVersions] in Hkept, Htake. rewrite Nat.sub_0_r in Htake.
  assert (Hcalled : called = sort (collectCandidates project service versions)).
  { apply classify_subjects. }
  split; [ | split; [ | split; [ | split; [ | split; [ | split ] ] ] ] ].
  - rewrite Htake, length_take. lia.
  - by rewrite Hcalled, sort_Permutation, collectCandidates_filter.
  - rewrite Hcalled. apply sort_sorted.
  - apply notDayKeeps_sublist.
  - done.
  - done.
  - intros c Hc. unfold kept. apply list_elem_of_fmap. exists c.
    split; [ done | ]. apply recentKeeps_answered; [ | done ].
    pose proof (filterCalls_answers now keepMinimum
                  (sort (collectCandidates project service versions))
                  {| versionsForDays := trackedDays tz now keepDailyAmount;
                     keptRecentVersions := [] |}) as Hok.
    by rewrite Hcalls in Hok.
Qed.

(** ** A candidate of a day whose bucket is filled *)

(** C4. A candidate of a tracked day, visited after another candidate of
    that day, has the bucket filled by one deployed no earlier; it is not
    deleted for that: the callback goes on to the count of recent versions,
    keeps the candidate when fewer than [keepMinimum] are kept as recent by
    then, and leaves it for deletion only otherwise. *)
Theorem filled_bucket_falls_through tz now project service
    keepDailyAmount keepMinimum versions i before c after :
  0 <= i < keepDailyAmount →
  sort (collectCandidates project service versions) = before ++ c :: after →
  keyOf c = dayKey (dayBefore tz now i) →
  Exists (fun c' => keyOf c' = keyOf c) before →
  let r := classify tz now project service keepDailyAmount keepMinimum versions in
  let counter := length (recentKeeps (take (length before) (calls r))) in
  let since := now - Candidate.lastDeployed c in
  (∃ c', c' ∈ before ∧ keyOf c' = keyOf c
         ∧ Candidate.lastDeployed c <= Candidate.lastDeployed c'
         ∧ dayKeeps (keyOf c) (calls r) = [c'])
  ∧ (Z.of_nat counter < keepMinimum →
       calls r !! length before
       = Some (c, KeepingForRecent (counter + 1) (Candidate.id c) since, false)
       ∧ Candidate.id c ∈ kept r)
  ∧ (keepMinimum <= Z.of_nat counter →
       calls r !! length before = Some (c, Deleting (Candidate.id c) since, true)
       ∧ Candidate.id c ∈ candidatesForDeletion r).
Proof.
  intros Hi Hsplit Hkey Hex r counter since.
  pose proof (classify_filterCalls tz now project service keepDailyAmount
                keepMinimum versions) as Hcalls.
  fold r in Hcalls. cbv zeta in Hcalls.
  pose proof (trackedDays_tracked tz now keepDailyAmount i Hi) as Htracked.
  rewrite <- Hkey in Htracked.
  pose proof (sort_sorted (collectCandidates project service versions)) as Hsorted.
  rewrite Hsplit in Hcalls, Hsorted.
  (* the first candidate of the day *)
  apply Exists_exists in Hex as (c0 & Hc0 & Hk0).
  destruct (first_of_day (keyOf c) before c0 Hc0 Hk0)
    as (earlier & c' & later & Hmid & Hc' & Hnone).
  symmetry in Hmid.
  assert (Hin' : c' ∈ before).
  { rewrite <- Hmid. apply elem_of_app. right. by left. }
  (* the calls on [before], then the call on [c] *)
  pose proof Hcalls as Hwhole.
  rewrite filterCalls_app in Hcalls.
  destruct (filterCalls now keepMinimum _ before) as [calls1 st1] eqn:E1.
  rewrite filterCalls_cons in Hcalls.
  destruct (keepOrDelete now keepMinimum st1 c) as [[st2 m] b] eqn:E2.
  destruct (filterCalls now keepMinimum st2 after) as [calls3 st3] eqn:E3.
  injection Hcalls as Hcalls Hfinal.
  assert (Hlen : length calls1 = length before).
  { pose proof (filterCalls_subjects now keepMinimum
                  {| versionsForDays := trackedDays tz now keepDailyAmount;
                     keptRecentVersions := [] |} before) as Hsub.
    rewrite E1 in Hsub. apply (f_equal length) in Hsub.
    by rewrite length_fmap in Hsub. }
  assert (Hcall : calls r !! length before = Some (c, m, b)).
  { rewrite <- Hcalls, lookup_app_r by lia. by rewrite Hlen, Nat.sub_diag. }
  assert (Hcounter : length (keptRecentVersions st1) = counter).
  { apply filterCalls_recent in E1 as [-> _]. cbn.
    unfold counter. rewrite <- Hcalls, <- Hlen, take_app_length.
    by rewrite length_fmap. }
  assert (Hfilled : versionsForDays st1 !! keyOf c = Some (Some (Candidate.id c'))).
  { rewrite <- Hmid in E1.
    by apply (filterCalls_day_first _ _ (keyOf c)) in E1 as (_ & ? & _). }
  split; [ | split ].
  - exists c'. split; [ done | ]. split; [ done | ]. split.
    + apply (StronglySorted_app_1_elem_of _ _ _ c' c) in Hsorted;
        [ done | done | by left ].
    + rewrite <- Hmid, <- app_assoc, <- app_comm_cons in Hwhole.
      by apply (filterCalls_day_first _ _ (keyOf c)) in Hwhole as (? & _).
  - intros Hlt.
    destruct (keepOrDelete_cases now keepMinimum st1 c)
      as [ (Hday & _) | [ (_ & _ & E') | (_ & Hge & _) ] ];
      [ unfold keyOf in Hfilled; congruence | | lia ].
    rewrite E' in E2. injection E2 as _ <- <-. rewrite Hcounter in Hcall.
    split; [ done | ].
    unfold kept. apply list_elem_of_fmap. exists c. split; [ done | ].
    eapply answered_lookup, Hcall.
  - intros Hge.
    destruct (keepOrDelete_cases now keepMinimum st1 c)
      as [ (Hday & _) | [ (_ & Hlt & _) | (_ & _ & E') ] ];
      [ unfold keyOf in Hfilled; congruence | lia | ].
    rewrite E' in E2. injection E2 as _ <- <-.
    split; [ done | ].
    unfold candidatesForDeletion. apply list_elem_of_fmap. exists c.
    split; [ done | ]. eapply answered_lookup, Hcall.
Qed.

(** ** The deletion loop *)

(** One turn of the loop, spelled out. *)
Lemma deleteLoop_unfold h log project service fuel versions done w :
  deleteLoop h log project service fuel versions done w
  = match heap w !! versions with
    | None => (Throw (TypeError "not an array"), w)
    | Some [] => (Normal done, w)
    | Some (x :: a') =>
        let a := x :: a' in
        match fuel with
        | O => (Unfinished, w)
        | S fuel =>
            let next := take deleteAtMost a in
            let w1 := stored w versions (drop deleteAtMost a) in
            match log with
            | None => (Throw (TypeError "log is not a function"), w1)
            | Some sink =>
                let w2 := logged w1 (Logged sink (EnactingDeletion next)) in
                let args := deleteArguments project service next in
                let r := gcloud h (length (spawned w2)) args in
                let w3 := logged (logged w2 (Spawned args)) (StderrWritten (stderr r)) in
                if bool_decide (status r ≠ Some 0) then
                  (Normal done, logged w3 (Logged sink (CouldNotDelete (status r))))
                else
                  match stdout r with
                  | NotJson => (Throw SyntaxError, w3)
                  | Json parsed =>
                      deleteLoop h log project service fuel versions
                        (done + Z.of_nat (length next))
                        (logged w3 (InfoPrinted parsed))
                  end
            end
        end
    end.
Proof.
  destruct fuel as [ | fuel ]; cbn [deleteLoop]; unfold bind at 1, read;
    destruct (heap w !! versions) as [ [ | x a' ] | ] eqn:Hread; try done.
  unfold bind at 1, splice, bind at 1, read. rewrite Hread.
  destruct log as [ sink | ]; [ | done ].
  cbv beta iota zeta delta
    [bind call_log emit spawnSync ret JSON_parse throw logged stored heap trace].
  case_bool_decide; [ done | ].
  destruct (stdout _); done.
Qed.

Lemma spawned_logged w e :
  spawned (logged w e)
  = spawned w ++ match e with Spawned args => [args] | _ => [] end.
Proof. unfold spawned, logged. cbn [trace]. rewrite omap_app. by destruct e. Qed.

(** A write to an array leaves the trace, and so the processes run, as they
    were. *)
Ltac spawned_of_stored :=
  repeat match goal with
  | |- context [spawned (stored ?w ?l ?x)] =>
      change (spawned (stored w l x)) with (spawned w)
  end.

Lemma batches_ceiling n :
  (deleteAtMost * (batches n - 1) < n + Nat.b2n (n =? 0)
   ∧ n <= deleteAtMost * batches n)%nat.
Proof.
  unfold batches, deleteAtMost. change (4 - 1)%nat with 3%nat.
  pose proof (Nat.div_mod_eq (n + 3) 4) as H.
  pose proof (Nat.mod_upper_bound (n + 3) 4 ltac:(lia)) as H'.
  destruct (Nat.eqb_spec n 0); cbn [Nat.b2n]; lia.
Qed.

Lemma batches_le n : (batches n ≤ n)%nat.
Proof.
  destruct n as [ | n ]; [ done | ].
  pose proof (batches_ceiling (S n)) as [Hlow _].
  cbn [Nat.eqb Nat.b2n] in Hlow. unfold deleteAtMost in *. lia.
Qed.

Lemma batches_lt k n :
  (1 ≤ k ≤ batches n → (k - 1) * deleteAtMost < n)%nat.
Proof.
  destruct n as [ | n ]; [ vm_compute; lia | ].
  pose proof (batches_ceiling (S n)) as [Hlow _].
  cbn [Nat.eqb Nat.b2n] in Hlow. unfold deleteAtMost in *. lia.
Qed.

Lemma batches_drop n :
  (0 < n → batches (n - deleteAtMost) = batches n - 1)%nat.
Proof.
  unfold batches, deleteAtMost. change (4 - 1)%nat with 3%nat. intros Hn.
  destruct (le_lt_dec 4 n) as [ Hbig | Hsmall ].
  - replace (n + 3)%nat with (n - 4 + 3 + 1 * 4)%nat by lia.
    rewrite Nat.div_add by lia. lia.
  - assert (n = 1 ∨ n = 2 ∨ n = 3)%nat as [ -> | [ -> | -> ] ] by lia; done.
Qed.

Lemma chunk_drop j (a : list JsValue) :
  chunk j (drop deleteAtMost a) = chunk (S j) a.
Proof. unfold chunk. by rewrite drop_drop. Qed.

Section Loop.
Context (h : Host) (sink : LogSink) (project service : JsValue) (copy : nat).

Local Abbreviation loop := (deleteLoop h (Some sink) project service).
Local Abbreviation call a := (fun j => deleteArguments project service (chunk j a)).

(** [n] turns of the loop whose calls succeed: [n] chunks are gone from
    the copy and counted, and [n] calls were made. *)
Lemma deleteLoop_run n :
  ∀ fuel rest done w,
    heap w !! copy = Some rest →
    (n ≤ batches (length rest))%nat →
    (n ≤ fuel)%nat →
    (∀ j, (j < n)%nat →
          succeeds (gcloud h (length (spawned w) + j) (call rest j))) →
    ∃ w',
      loop fuel copy done w
      = loop (fuel - n) copy
          (done + Z.of_nat (length (take (n * deleteAtMost) rest))) w'
      ∧ heap w' = <[copy := drop (n * deleteAtMost) rest]> (heap w)
      ∧ spawned w' = spawned w ++ (call rest <$> seq 0 n).
Proof.
  induction n as [ | n IH ]; intros fuel rest done w Hcopy Hn Hfuel Hok.
  - exists w. cbn [Nat.mul seq fmap list_fmap]. rewrite take_0, drop_0.
    rewrite Nat.sub_0_r, Z.add_0_r, app_nil_r, list_insert_id by done. done.
  - destruct rest as [ | x rest' ]; [ by vm_compute in Hn; lia | ].
    destruct fuel as [ | fuel ]; [ lia | ].
    assert (Hlt : (copy < length (heap w))%nat) by (by eapply lookup_lt_Some).
    pose proof (Hok 0%nat ltac:(lia)) as [Hstatus Hjson].
    rewrite Nat.add_0_r in Hstatus, Hjson.
    rewrite deleteLoop_unfold, Hcopy. cbv beta iota zeta.
    set (rest := x :: rest') in *.
    rewrite spawned_logged, app_nil_r.
    spawned_of_stored.
    change (take deleteAtMost rest) with (chunk 0 rest).
    rewrite bool_decide_eq_false_2 by (by intros ?).
    destruct (stdout _) as [ parsed | ] eqn:Hout; [ | done ].
    match goal with
    | |- context [loop fuel copy ?d ?w1] =>
        destruct (IH fuel (drop deleteAtMost rest) d w1) as (w' & Hrun & Hheap & Hsp)
    end.
    + cbn [logged stored heap]. by rewrite list_lookup_insert_eq.
    + rewrite length_drop, batches_drop by (cbn; lia). lia.
    + lia.
    + intros j Hj. rewrite chunk_drop.
      rewrite !spawned_logged, !app_nil_r, length_app. cbn [length].
      spawned_of_stored.
      replace (length (spawned w) + 1 + j)%nat
        with (length (spawned w) + S j)%nat by lia.
      apply Hok. lia.
    + exists w'. rewrite Hrun, Hheap, Hsp. cbn [Nat.sub].
      split; [ | split ].
      * f_equal. unfold chunk. rewrite !length_take, !length_drop. lia.
      * cbn [logged stored heap].
        by rewrite list_insert_insert_eq, drop_drop.
      * rewrite !spawned_logged, !app_nil_r.
        spawned_of_stored.
        rewrite <- app_assoc. f_equal. cbn [seq fmap list_fmap app].
        f_equal. rewrite <- fmap_S_seq, <- list_fmap_compose.
        apply list_fmap_ext. intros ? j ?. unfold compose. by rewrite chunk_drop.
Qed.
End Loop.

(** ** The ids that are refused *)

Lemma prefix_empty s : String.prefix "" s = true.
Proof. by destruct s. Qed.

Lemma includes_backslash s :
  is_Some (String.index 0 "\" s) ↔ ∃ s1 s2, s = s1 +:+ String "\" s2.
Proof.
  induction s as [ | b s IH ].
  - cbn. split; [ by intros ?%is_Some_None | ].
    intros (s1 & s2 & H). by destruct s1.
  - cbn [String.index String.prefix].
    destruct (ascii_dec "\" b) as [ <- | Hne ].
    + rewrite prefix_empty. split; [ | by eauto ]. intros _. by exists "", s.
    + destruct (String.index 0 "\" s) as [ n | ] eqn:E.
      * split; [ intros _ | by eauto ].
        destruct IH as [IH _]. destruct IH as (s1 & s2 & ->); [ by eauto | ].
        by exists (String b s1), s2.
      * split; [ by intros ?%is_Some_None | ]. intros (s1 & s2 & H).
        destruct s1 as [ | c s1 ]; cbn in H; injection H as Hb Hs; [ done | ].
        destruct IH as [_ IH]. destruct IH as [? ?]; [ by eauto | done ].
Qed.

Lemma badVersion_unsafe version : badVersion version = true ↔ unsafeId version.
Proof.
  destruct version as [ | | b | n | s | ]; cbn [badVersion unsafeId]; try tauto.
  rewrite orb_true_iff, bool_decide_eq_true, includes_backslash.
  apply or_iff_compat_r.
  destruct s as [ | b s ]; cbn [String.prefix].
  - split; [ done | by intros [? ?] ].
  - destruct (ascii_dec "-" b) as [ <- | Hne ].
    + rewrite prefix_empty. split; [ by eauto | done ].
    + split; [ done | ]. intros [t H]. congruence.
Qed.

Lemma checkVersions_ok a w :
  Forall (fun v => badVersion v = false) a → checkVersions a w = (Normal tt, w).
Proof.
  induction 1 as [ | v a Hv _ IH ]; [ done | ].
  cbn [checkVersions]. by rewrite Hv.
Qed.

Lemma checkVersions_bad a w :
  Exists (fun v => badVersion v = true) a →
  ∃ v, v ∈ a ∧ badVersion v = true
       ∧ checkVersions a w = (Throw (Error (BadVersion v)), w).
Proof.
  induction a as [ | v a IH ]; intros H; [ by apply Exists_nil in H | ].
  cbn [checkVersions]. destruct (badVersion v) eqn:E.
  - exists v. split; [ by left | done ].
  - apply Exists_cons in H as [ H | H ]; [ congruence | ].
    destruct (IH H) as (v' & Hin & Hbad & Hthrow).
    exists v'. split; [ by right | done ].
Qed.

(** ** [deleteVersions] *)

Lemma deleteVersions_valid h options versions a w :
  heap w !! versions = Some a →
  Forall (fun v => badVersion v = false) a →
  deleteVersions h options versions w
  = deleteLoop h (destructure options).1.1 (destructure options).1.2
      (destructure options).2 (length a) (length (heap w)) 0 (copied w a).
Proof.
  intros Hread Hok. unfold deleteVersions.
  destruct (destructure options) as [[log project] service].
  unfold bind at 1, read. rewrite Hread.
  unfold bind at 1. rewrite checkVersions_ok by done.
  unfold bind at 1, slice, bind at 1, read. by rewrite Hread.
Qed.

Lemma deleteVersions_invalid h options versions a w :
  heap w !! versions = Some a →
  Exists (fun v => badVersion v = true) a →
  ∃ v, v ∈ a ∧ badVersion v = true
       ∧ deleteVersions h options versions w = (Throw (Error (BadVersion v)), w).
Proof.
  intros Hread Hbad. unfold deleteVersions.
  destruct (destructure options) as [[log project] service].
  destruct (checkVersions_bad a w Hbad) as (v & Hin & Hv & Hthrow).
  exists v. split; [ done | ]. split; [ done | ].
  unfold bind at 1, read. rewrite Hread.
  unfold bind at 1. by rewrite Hthrow.
Qed.

(** C6. An id that is not a string, or starts with a minus sign, or has a
    backslash in it, anywhere in the list, makes [deleteVersions] throw
    "bad version" and leaves the world as it was: no child process was run
    and nothing was logged, whatever the options and the other ids. *)
Theorem unsafe_id_aborts_before_any_call h options versions a w :
  heap w !! versions = Some a →
  Exists unsafeId a →
  ∃ v, v ∈ a ∧ unsafeId v
       ∧ deleteVersions h options versions w = (Throw (Error (BadVersion v)), w).
Proof.
  intros Hread Hbad.
  destruct (deleteVersions_invalid h options versions a w Hread)
    as (v & Hin & Hv & Hthrow).
  - eapply Exists_impl; [ exact Hbad | ]. intros v. apply badVersion_unsafe.
  - exists v. by rewrite <- badVersion_unsafe.
Qed.

(** C5. With a log function in the options and valid ids, [deleteVersions]
    runs one child process per chunk of [deleteAtMost] ids, in order. When
    every call succeeds it makes [batches L] calls (L / 4 rounded up) and
    returns L. When the [k]-th call is the first to fail it makes exactly
    those [k] calls and returns [(k - 1) * deleteAtMost]. *)
Theorem batched_deletion h options sink versions a w :
  (destructure options).1.1 = Some sink →
  heap w !! versions = Some a →
  Forall (fun v => badVersion v = false) a →
  let L := length a in
  let call j :=
    deleteArguments (destructure options).1.2 (destructure options).2 (chunk j a) in
  let result j := gcloud h (length (spawned w) + j) (call j) in
  ((∀ j, (j < batches L)%nat → succeeds (result j)) →
   ∃ w', deleteVersions h options versions w = (Normal (Z.of_nat L), w')
         ∧ spawned w' = spawned w ++ (call <$> seq 0 (batches L))
         ∧ length (spawned w') = (length (spawned w) + batches L)%nat)
  ∧ (∀ k, (1 ≤ k ≤ batches L)%nat →
          (∀ j, (j < k - 1)%nat → succeeds (result j)) →
          fails (result (k - 1)%nat) →
          ∃ w', deleteVersions h options versions w
                = (Normal (Z.of_nat ((k - 1) * deleteAtMost)), w')
                ∧ spawned w' = spawned w ++ (call <$> seq 0 k)
                ∧ length (spawned w') = (length (spawned w) + k)%nat).
Proof.
  intros Hlog Hread Hvalid L call result. subst L.
  rewrite (deleteVersions_valid h options versions a w Hread Hvalid), Hlog.
  set (project := (destructure options).1.2) in *.
  set (service := (destructure options).2) in *.
  set (copy := length (heap w)).
  assert (Hcopy : heap (copied w a) !! copy = Some a).
  { unfold copied, copy. cbn [heap]. rewrite lookup_app_r by lia.
    by rewrite Nat.sub_diag. }
  assert (Hin : (copy < length (heap (copied w a)))%nat)
    by (by eapply lookup_lt_Some).
  pose proof (batches_ceiling (length a)) as [_ Hhigh].
  pose proof (batches_le (length a)) as Hle.
  split.
  - intros Hok.
    destruct (deleteLoop_run h sink project service copy (batches (length a))
                (length a) a 0 (copied w a) Hcopy) as (w' & Hrun & Hheap & Hsp);
      [ done | done | exact Hok | ].
    rewrite Hrun, deleteLoop_unfold, Hheap.
    rewrite list_lookup_insert_eq by done.
    rewrite drop_ge by lia. rewrite take_ge by lia.
    exists w'. split; [ done | ].
    rewrite Hsp. split; [ done | ]. by rewrite length_app, length_fmap, length_seq.
  - intros k Hk Hok Hfail.
    pose proof (batches_lt k (length a) Hk) as Hmore.
    destruct k as [ | n ]; [ lia | ].
    replace (S n - 1)%nat with n in * by lia.
    destruct (deleteLoop_run h sink project service copy n
                (length a) a 0 (copied w a) Hcopy) as (w' & Hrun & Hheap & Hsp);
      [ lia | lia | exact Hok | ].
    change (spawned (copied w a)) with (spawned w) in Hsp.
    rewrite Hrun, deleteLoop_unfold, Hheap.
    rewrite list_lookup_insert_eq by done.
    destruct (drop (n * deleteAtMost) a) as [ | x rest ] eqn:Hdrop.
    { apply (f_equal length) in Hdrop. rewrite length_drop in Hdrop.
      cbn in Hdrop. lia. }
    destruct (length a - n)%nat as [ | fuel ] eqn:Hfuel; [ lia | ].
    cbv beta iota zeta. rewrite <- Hdrop.
    rewrite spawned_logged, app_nil_r.
    spawned_of_stored.
    rewrite Hsp, length_app, length_fmap, length_seq.
    change (take deleteAtMost (drop (n * deleteAtMost) a)) with (chunk n a).
    fold project service (call n) (result n).
    rewrite bool_decide_eq_true_2 by exact Hfail.
    eexists. split; [ | split ].
    + f_equal. rewrite Z.add_0_l, length_take. f_equal. lia.
    + rewrite !spawned_logged, !app_nil_r.
      spawned_of_stored.
      rewrite Hsp, <- app_assoc. f_equal. by rewrite seq_S, fmap_app.
    + rewrite !spawned_logged, !app_nil_r.
      spawned_of_stored.
      rewrite Hsp, !length_app, length_fmap, length_seq. cbn. lia.
Qed.

(** A delete call that exits with 0 and prints no JSON is neither: the loop
    stops at [JSON.parse], after the first call, with a SyntaxError. *)
Example exit_0_without_json_throws :
  let run := deleteVersions hostSilent (OptionsObject allOptions) 0
               (listedWorld nineIds) in
  run.1 = Throw SyntaxError ∧ length (spawned run.2) = 2%nat.
Proof. by vm_compute. Qed.

(** ** What the loop leaves behind *)

(** The loop writes to the copy only: a tail of what it held is left. *)
Lemma deleteLoop_heap h log project service fuel :
  ∀ copy done w rest out w',
    heap w !! copy = Some rest →
    deleteLoop h log project service fuel copy done w = (out, w') →
    ∃ n, heap w' = <[copy := drop n rest]> (heap w).
Proof.
  induction fuel as [ | fuel IH ]; intros copy done w rest out w' Hcopy Hrun;
    rewrite deleteLoop_unfold, Hcopy in Hrun.
  - exists 0%nat. rewrite drop_0, list_insert_id by done.
    destruct rest; by injection Hrun as _ <-.
  - destruct rest as [ | x rest' ].
    { exists 0%nat. rewrite drop_0, list_insert_id by done. by injection Hrun as _ <-. }
    cbv beta iota zeta in Hrun. set (rest := x :: rest') in *.
    destruct log as [ sink | ];
      [ | exists deleteAtMost; by injection Hrun as _ <- ].
    case_bool_decide;
      [ exists deleteAtMost; by injection Hrun as _ <- | ].
    destruct (stdout _) as [ parsed | ];
      [ | exists deleteAtMost; by injection Hrun as _ <- ].
    assert (Hlt : (copy < length (heap w))%nat) by (by eapply lookup_lt_Some).
    apply (IH _ _ _ (drop deleteAtMost rest)) in Hrun as [n Hn].
    + exists (deleteAtMost + n)%nat. rewrite Hn. cbn [logged stored heap].
      by rewrite list_insert_insert_eq, drop_drop.
    + cbn [logged stored heap]. by rewrite list_lookup_insert_eq.
Qed.

(** The fuel [deleteVersions] gives the loop is enough. *)
Lemma deleteLoop_finishes h log project service fuel :
  ∀ copy done w rest,
    heap w !! copy = Some rest →
    (length rest ≤ fuel)%nat →
    (deleteLoop h log project service fuel copy done w).1 ≠ Unfinished.
Proof.
  induction fuel as [ | fuel IH ]; intros copy done w rest Hcopy Hfuel;
    rewrite deleteLoop_unfold, Hcopy.
  - destruct rest; [ done | cbn in Hfuel; lia ].
  - destruct rest as [ | x rest' ]; [ done | ].
    cbv beta iota zeta. set (rest := x :: rest') in *.
    destruct log as [ sink | ]; [ | done ].
    case_bool_decide; [ done | ].
    destruct (stdout _) as [ parsed | ]; [ | done ].
    assert (Hlt : (copy < length (heap w))%nat) by (by eapply lookup_lt_Some).
    apply (IH _ _ _ (drop deleteAtMost rest)).
    + cbn [logged stored heap]. by rewrite list_lookup_insert_eq.
    + rewrite length_drop. unfold deleteAtMost. cbn [length] in *. lia.
Qed.

Lemma deleteVersions_finishes h options versions w :
  (deleteVersions h options versions w).1 ≠ Unfinished.
Proof.
  destruct (heap w !! versions) as [ a | ] eqn:Hread.
  - destruct (decide (Forall (fun v => badVersion v = false) a)) as [ Hok | Hbad ].
    + rewrite (deleteVersions_valid _ _ _ a) by done.
      apply (deleteLoop_finishes _ _ _ _ _ _ _ _ a); [ | done ].
      unfold copied. cbn [heap]. rewrite lookup_app_r by lia.
      by rewrite Nat.sub_diag.
    + apply not_Forall_Exists in Hbad; [ | apply _ ].
      destruct (deleteVersions_invalid h options versions a w Hread)
        as (v & _ & _ & ->); [ | done ].
      eapply Exists_impl; [ exact Hbad | ]. intros v. cbn. by destruct (badVersion v).
  - unfold deleteVersions. destruct (destructure options) as [[log project] service].
    unfold bind at 1, read. by rewrite Hread.
Qed.

(** C10. Whatever the options, the ids and the outcome of the calls,
    [deleteVersions] leaves the caller's array as it was: the array it
    shortens is the copy it made, the newest array of the heap, and every
    array that existed before the call is unchanged. *)
Theorem deleteVersions_keeps_the_callers_list h options versions a w out w' :
  heap w !! versions = Some a →
  deleteVersions h options versions w = (out, w') →
  heap w' !! versions = Some a
  ∧ (heap w' = heap w ∨ ∃ n, heap w' = heap w ++ [drop n a])
  ∧ out ≠ Unfinished.
Proof.
  intros Hread Hrun.
  assert (Hfin : out ≠ Unfinished).
  { pose proof (deleteVersions_finishes h options versions w) as H.
    by rewrite Hrun in H. }
  destruct (decide (Forall (fun v => badVersion v = false) a)) as [ Hok | Hbad ].
  - rewrite (deleteVersions_valid _ _ _ a) in Hrun by done.
    apply (deleteLoop_heap _ _ _ _ _ _ _ _ a) in Hrun as [n Hn].
    + assert (Hheap : heap w' = heap w ++ [drop n a]).
      { rewrite Hn. unfold copied. cbn [heap].
        replace (length (heap w)) with (length (heap w) + 0)%nat by lia.
        by rewrite insert_app_r. }
      split; [ | split; [ right; by exists n | done ] ].
      rewrite Hheap, lookup_app_l; [ done | by eapply lookup_lt_Some ].
    + unfold copied. cbn [heap]. rewrite lookup_app_r by lia.
      by rewrite Nat.sub_diag.
  - apply not_Forall_Exists in Hbad; [ | apply _ ].
    destruct (deleteVersions_invalid h options versions a w Hread)
      as (v & _ & _ & Hthrow).
    + eapply Exists_impl; [ exact Hbad | ]. intros v. cbn. by destruct (badVersion v).
    + rewrite Hthrow in Hrun. injection Hrun as _ <-. tauto.
Qed.

(** ** [purgeOldVersionsFor] *)

Lemma logAll_some sink messages w :
  logAll (Some sink) messages w
  = (Normal tt, {| heap := heap w; trace := trace w ++ (Logged sink <$> messages) |}).
Proof.
  revert w. induction messages as [ | m rest IH ]; intros w.
  - cbn. rewrite app_nil_r. by destruct w.
  - cbn [logAll]. unfold bind, call_log, emit. rewrite IH. cbn [heap trace].
    by rewrite <- app_assoc.
Qed.

Lemma spawned_app_logs w sink (messages : list Message) h' :
  spawned {| heap := h'; trace := trace w ++ (Logged sink <$> messages) |}
  = spawned w.
Proof.
  unfold spawned. cbn [trace]. rewrite omap_app.
  induction messages as [ | m rest IH ]; [ by rewrite app_nil_r | done ].
Qed.

(** The run, spelled out: the listing, the log of the classification, and
    the call of [deleteVersions] with the project string for options. *)
Lemma purgeOldVersionsFor_unfold h options w :
  purgeOldVersionsFor h options w
  = let args := listArguments JsUndefined JsUndefined in
    let r := gcloud h (length (spawned w)) args in
    let w1 := logged w (Spawned args) in
    if bool_decide (status r ≠ Some 0) then
      (Throw (Error (CouldNotListVersions (status r))), w1)
    else
      match stdout r with
      | NotJson => (Throw SyntaxError, w1)
      | Json versions =>
          let c := classifyFor h options versions in
          let sink := default ConsoleInfo (PurgeOptions.log options) in
          let candidates := answered true (calls c) in
          let w2 :=
            {| heap := heap w ++ [JsString ∘ Candidate.id <$> candidates];
               trace := trace w1 ++ (Logged sink <$> (snd ∘ fst <$> calls c)) |} in
          match deleteVersions h (OptionsString (PurgeOptions.project options))
                  (length (heap w)) w2 with
          | (Normal count, w3) =>
              if (0 <? Z.of_nat (length candidates)) && (count =? 0) then
                (Throw (Error (DeletedWithError count)), w3)
              else (Normal JsUndefined, w3)
          | (Throw e, w3) => (Throw e, w3)
          | (Unfinished, w3) => (Unfinished, w3)
          end
      end.
Proof.
  unfold purgeOldVersionsFor, fetchVersions. cbn [destructure].
  unfold bind at 1, bind at 1, spawnSync. cbv zeta.
  fold (logged w (Spawned (listArguments JsUndefined JsUndefined))).
  case_bool_decide; [ done | ].
  destruct (stdout _) as [ versions | ]; [ | done ].
  cbn [JSON_parse]. unfold ret at 1. unfold bind at 1. rewrite logAll_some.
  unfold bind at 1, alloc. cbn [heap trace logged].
  unfold bind at 1. fold (classifyFor h options versions).
  destruct (deleteVersions _ _ _ _) as [[count | e | ] w3]; [ | done .. ].
  by destruct (_ && _).
Qed.

(** The loop only adds to the trace. *)
Lemma deleteLoop_trace h log project service fuel :
  ∀ copy done w out w',
    deleteLoop h log project service fuel copy done w = (out, w') →
    ∃ more, trace w' = trace w ++ more.
Proof.
  induction fuel as [ | fuel IH ]; intros copy done w out w' Hrun;
    rewrite deleteLoop_unfold in Hrun;
    (destruct (heap w !! copy) as [ [ | x rest' ] | ];
     [ | | ]; try (exists []; rewrite app_nil_r; by injection Hrun as _ <-)).
  cbv beta iota zeta in Hrun.
  destruct log as [ sink | ];
    [ | exists []; rewrite app_nil_r; by injection Hrun as _ <- ].
  case_bool_decide.
  { injection Hrun as _ <-. cbn [logged stored trace].
    rewrite <- !app_assoc. eauto. }
  destruct (stdout _) as [ parsed | ].
  - apply IH in Hrun as [more ->]. cbn [logged stored trace].
    rewrite <- !app_assoc. eauto.
  - injection Hrun as _ <-. cbn [logged stored trace].
    rewrite <- !app_assoc. eauto.
Qed.

Lemma deleteVersions_trace h options versions w out w' :
  deleteVersions h options versions w = (out, w') →
  ∃ more, trace w' = trace w ++ more.
Proof.
  unfold deleteVersions. destruct (destructure options) as [[log project] service].
  unfold bind at 1, read.
  destruct (heap w !! versions) as [ a | ];
    [ | intros H; exists []; rewrite app_nil_r; by injection H as _ <- ].
  unfold bind at 1.
  destruct (decide (Forall (fun v => badVersion v = false) a)) as [ Hok | Hbad ].
  - rewrite checkVersions_ok by done.
    unfold bind at 1, slice, bind at 1, read.
    destruct (heap w !! versions) as [ a' | ];
      [ | intros H; exists []; rewrite app_nil_r; by injection H as _ <- ].
    unfold alloc. intros H. by apply deleteLoop_trace in H.
  - apply not_Forall_Exists in Hbad; [ | apply _ ].
    destruct (checkVersions_bad a w) as (v & _ & _ & ->).
    + eapply Exists_impl; [ exact Hbad | ]. intros v. cbn. by destruct (badVersion v).
    + intros H. exists []. rewrite app_nil_r. by injection H as _ <-.
Qed.


(** Every run lists the versions of the project [undefined] and the service
    [undefined], whatever the options name. *)
Lemma purgeOldVersionsFor_lists_undefined h options w :
  ∃ more,
    trace (purgeOldVersionsFor h options w).2
    = trace w ++ Spawned (listArguments JsUndefined JsUndefined) :: more.
Proof.
  rewrite purgeOldVersionsFor_unfold. cbv zeta.
  case_bool_decide; [ by exists [] | ].
  destruct (stdout _) as [ versions | ]; [ | by exists [] ].
  destruct (deleteVersions _ _ _ _) as [out w3] eqn:Hdel.
  apply deleteVersions_trace in Hdel as [more Hmore]. cbn [trace logged] in Hmore.
  rewrite <- !app_assoc in Hmore. cbn [app] in Hmore.
  destruct out as [ count | e | ]; try destruct (_ && _); cbn [snd]; eauto.
Qed.

(** A run that does not throw gives [undefined], never a count. *)
Lemma purgeOldVersionsFor_returns_undefined h options w v w' :
  purgeOldVersionsFor h options w = (Normal v, w') → v = JsUndefined.
Proof.
  rewrite purgeOldVersionsFor_unfold. cbv zeta.
  case_bool_decide; [ done | ].
  destruct (stdout _) as [ versions | ]; [ | done ].
  destruct (deleteVersions _ _ _ _) as [[ count | e | ] w3]; [ | done .. ].
  destruct (_ && _); [ done | ]. by intros [= <- _].
Qed.


(** ** Termination *)

(** Every run ends: it returns or throws. *)
Lemma purgeOldVersionsFor_finishes h options w :
  (purgeOldVersionsFor h options w).1 ≠ Unfinished.
Proof.
  rewrite purgeOldVersionsFor_unfold. cbv zeta.
  case_bool_decide; [ done | ].
  destruct (stdout _) as [ versions | ]; [ | done ].
  match goal with
  | |- context [deleteVersions ?h ?o ?l ?w2] =>
      pose proof (deleteVersions_finishes h o l w2) as Hfin;
      destruct (deleteVersions h o l w2) as [[ count | e | ] w3]
  end; [ by destruct (_ && _) | done | done ].
Qed.

(** * Further properties *)

(** ** What is kept, what is left *)

Lemma filterCalls_verdicts now keepMinimum candidates st :
  Forall (verdict now) (filterCalls now keepMinimum st candidates).1.
Proof.
  revert st. induction candidates as [ | c rest IH ]; intros st; [ constructor | ].
  rewrite filterCalls_cons.
  destruct (keepOrDelete now keepMinimum st c) as [[st1 m] b] eqn:E.
  specialize (IH st1).
  destruct (filterCalls now keepMinimum st1 rest) as [calls1 st2].
  constructor; [ | done ].
  destruct (keepOrDelete_cases now keepMinimum st c)
    as [ (_ & E') | [ (_ & _ & E') | (_ & _ & E') ] ];
    rewrite E' in E; injection E as _ <- <-; cbn; eauto.
Qed.

Lemma classify_verdicts tz now project service keepDailyAmount keepMinimum versions :
  Forall (verdict now)
    (calls (classify tz now project service keepDailyAmount keepMinimum versions)).
Proof.
  pose proof (filterCalls_verdicts now keepMinimum
                (sort (collectCandidates project service versions))
                {| versionsForDays := trackedDays tz now keepDailyAmount;
                   keptRecentVersions := [] |}) as Hok.
  by rewrite classify_filterCalls in Hok.
Qed.

(** While fewer than [keepMinimum] calls were made, none answers [true]. *)
Lemma filterCalls_first_kept now keepMinimum candidates :
  ∀ st calls st' j c m b,
    filterCalls now keepMinimum st candidates = (calls, st') →
    calls !! j = Some (c, m, b) →
    Z.of_nat (length (keptRecentVersions st)) + Z.of_nat j < keepMinimum →
    b = false.
Proof.
  induction candidates as [ | c0 rest IH ]; intros st calls st' j c m b H Hj Hlt.
  - by injection H as <- _.
  - rewrite filterCalls_cons in H.
    destruct (keepOrDelete now keepMinimum st c0) as [[st1 m0] b0] eqn:E.
    destruct (filterCalls now keepMinimum st1 rest) as [calls1 st2] eqn:E1.
    injection H as <- <-.
    destruct (keepOrDelete_cases now keepMinimum st c0)
      as [ (_ & E') | [ (_ & _ & E') | (_ & Hge & E') ] ];
      rewrite E' in E; injection E as Hst Hm Hb; subst st1 m0 b0;
      (destruct j as [ | j ]; [ cbn in Hj; injection Hj as _ _ <-; (done || lia) | ]);
      cbn in Hj; eapply (IH _ _ _ j); try done; cbn [keptRecentVersions];
      rewrite ?length_app; cbn [length]; lia.
Qed.

(** X1. The [keepMinimum] most recently deployed versions in scope that
    serve no traffic are never left for deletion, whatever
    [keepDailyAmount] is: the call on the [j]-th candidate of the sorted
    list, for [j] below [keepMinimum], answers [false]. *)
Theorem most_recent_are_kept tz now project service
    keepDailyAmount keepMinimum versions j c :
  Z.of_nat j < keepMinimum →
  sort (collectCandidates project service versions) !! j = Some c →
  let r := classify tz now project service keepDailyAmount keepMinimum versions in
  (∃ m, calls r !! j = Some (c, m, false)) ∧ Candidate.id c ∈ kept r.
Proof.
  intros Hj Hc r.
  pose proof (classify_filterCalls tz now project service keepDailyAmount
                keepMinimum versions) as Hcalls.
  fold r in Hcalls. cbv zeta in Hcalls.
  pose proof (classify_subjects tz now project service keepDailyAmount
                keepMinimum versions) as Hsub.
  fold r in Hsub. rewrite <- Hsub, list_lookup_fmap in Hc.
  destruct (calls r !! j) as [ [[c' m] b] | ] eqn:Hcall; [ | done ].
  injection Hc as ->.
  assert (b = false) as ->.
  { eapply (filterCalls_first_kept _ _ _ _ _ _ j); [ exact Hcalls | exact Hcall | ].
    cbn. lia. }
  split; [ by exists m | ].
  unfold kept. apply list_elem_of_fmap. exists c. split; [ done | ].
  eapply answered_lookup, Hcall.
Qed.

Lemma answered_lengths now (calls : list (Candidate.t * Message * bool)) :
  Forall (verdict now) calls →
  length (answered false calls)
  = (length (daysKept calls) + length (recentKeeps calls))%nat
  ∧ (length (notDayKeeps calls) + length (daysKept calls))%nat = length calls
  ∧ (length (answered false calls) + length (answered true calls))%nat = length calls.
Proof.
  induction 1 as [ | [[c m] b] calls Hm _ IH ]; [ done | ].
  unfold answered, daysKept, recentKeeps, notDayKeeps in *.
  destruct Hm as [ [-> ->] | [ (n & -> & ->) | [-> ->] ] ]; cbn in *; lia.
Qed.

(** X2. How many are kept: with [n] versions in scope that serve no
    traffic, of which [d] are kept for their day ([d] is at most
    [keepDailyAmount]), [d + min keepMinimum (n - d)] ids are kept and the
    other [n - d - keepMinimum] are left for deletion. *)
Theorem number_kept tz now project service keepDailyAmount keepMinimum versions :
  let r := classify tz now project service keepDailyAmount keepMinimum versions in
  let n := length (filter (inScope project service) versions) in
  let d := length (daysKept (calls r)) in
  (d ≤ Z.to_nat keepDailyAmount)%nat
  ∧ length (kept r) = (d + (Z.to_nat keepMinimum `min` (n - d)))%nat
  ∧ length (candidatesForDeletion r) = (n - d - Z.to_nat keepMinimum)%nat.
Proof.
  intros r n d.
  pose proof (classify_filterCalls tz now project service keepDailyAmount
                keepMinimum versions) as Hcalls.
  fold r in Hcalls. cbv zeta in Hcalls.
  pose proof (classify_verdicts tz now project service keepDailyAmount
                keepMinimum versions) as Hok.
  fold r in Hok.
  apply answered_lengths in Hok as (Hkept & Hnot & Hall).
  apply filterCalls_recent in Hcalls as [_ Htake]. cbn [keptRecentVersions length] in Htake.
  apply (f_equal length) in Htake. rewrite length_take in Htake.
  assert (Hn : length (calls r) = n).
  { pose proof (classify_subjects tz now project service keepDailyAmount
                  keepMinimum versions) as Hsub.
    fold r in Hsub. apply (f_equal length) in Hsub.
    rewrite length_fmap in Hsub. rewrite Hsub.
    by rewrite sort_Permutation, collectCandidates_filter, length_fmap. }
  split; [ apply at_most_keepDailyAmount_days | ].
  unfold kept, candidatesForDeletion. rewrite !length_fmap. fold d in Hkept, Hnot. lia.
Qed.

(** The candidates answered [true] are those not kept for a day, past the
    first [keepMinimum] of them. *)
Lemma filterCalls_deleted now keepMinimum candidates st calls st' :
  filterCalls now keepMinimum st candidates = (calls, st') →
  answered true calls
  = drop (Z.to_nat keepMinimum - length (keptRecentVersions st)) (notDayKeeps calls).
Proof.
  revert st calls st'.
  induction candidates as [ | c rest IH ]; intros st calls st' H.
  - injection H as <- _. cbn. by rewrite drop_nil.
  - rewrite filterCalls_cons in H.
    destruct (keepOrDelete now keepMinimum st c) as [[st1 m] b] eqn:E.
    destruct (filterCalls now keepMinimum st1 rest) as [calls1 st2] eqn:E1.
    injection H as <- <-. apply IH in E1.
    destruct (keepOrDelete_cases now keepMinimum st c)
      as [ (_ & E') | [ (_ & Hlt & E') | (_ & Hge & E') ] ];
      rewrite E' in E; injection E as Hst Hm Hb; subst st1 m b; clear E';
      unfold answered, notDayKeeps in *; cbn [omap list_omap Bool.eqb] in *;
      cbn [keptRecentVersions] in *.
    + done.
    + rewrite E1, length_app. cbn [length].
      replace (Z.to_nat keepMinimum - length (keptRecentVersions st))%nat
        with (S (Z.to_nat keepMinimum - (length (keptRecentVersions st) + 1)))%nat
        by lia.
      done.
    + rewrite E1.
      replace (Z.to_nat keepMinimum - length (keptRecentVersions st))%nat
        with 0%nat by lia.
      by rewrite !drop_0.
Qed.

Lemma classify_deleted tz now project service keepDailyAmount keepMinimum versions :
  let r := classify tz now project service keepDailyAmount keepMinimum versions in
  answered true (calls r) = drop (Z.to_nat keepMinimum) (notDayKeeps (calls r)).
Proof.
  intros r.
  pose proof (classify_filterCalls tz now project service keepDailyAmount
                keepMinimum versions) as Hcalls.
  fold r in Hcalls. cbv zeta in Hcalls.
  apply filterCalls_deleted in Hcalls. by rewrite Nat.sub_0_r in Hcalls.
Qed.

(** With more buckets unfilled, the candidates not kept for a day are
    fewer. *)
Lemma notDayKeeps_more_days now keepMinimum1 keepMinimum2 candidates :
  ∀ st1 st2,
    (∀ k, versionsForDays st1 !! k = Some None → versionsForDays st2 !! k = Some None) →
    notDayKeeps (filterCalls now keepMinimum2 st2 candidates).1
    `sublist_of` notDayKeeps (filterCalls now keepMinimum1 st1 candidates).1.
Proof.
  induction candidates as [ | c rest IH ]; intros st1 st2 Hsub; [ done | ].
  rewrite !filterCalls_cons.
  destruct (keepOrDelete now keepMinimum1 st1 c) as [[st1' m1] b1] eqn:E1.
  destruct (keepOrDelete now keepMinimum2 st2 c) as [[st2' m2] b2] eqn:E2.
  specialize (IH st1' st2').
  destruct (filterCalls now keepMinimum1 st1' rest) as [calls1 st1''].
  destruct (filterCalls now keepMinimum2 st2' rest) as [calls2 st2''].
  cbn [fst] in *.
  assert (Hnext : ∀ k, versionsForDays st1' !! k = Some None
                       → versionsForDays st2' !! k = Some None).
  { intros k.
    destruct (keepOrDelete_day _ _ _ _ k _ _ _ E1)
      as [ (H1 & Hk1 & _ & _ & Hf1) | (Hno1 & _ & ->) ]; [ congruence | ].
    intros H1.
    destruct (keepOrDelete_day _ _ _ _ k _ _ _ E2)
      as [ (H2 & Hk2 & _) | (_ & _ & ->) ]; [ tauto | by apply Hsub ]. }
  specialize (IH Hnext).
  destruct (keepOrDelete_cases now keepMinimum1 st1 c)
    as [ (Hday1 & E1') | [ (Hday1 & _ & E1') | (Hday1 & _ & E1') ] ];
    rewrite E1' in E1; injection E1 as _ <- _;
    (destruct (keepOrDelete_cases now keepMinimum2 st2 c)
      as [ (Hday2 & E2') | [ (Hday2 & _ & E2') | (Hday2 & _ & E2') ] ];
     rewrite E2' in E2; injection E2 as _ <- _);
    unfold notDayKeeps in *; cbn [omap list_omap];
    try (by apply Hsub in Hday1);
    try done; try (by constructor).
Qed.

Lemma sublist_drop_drop {A} (l1 l2 : list A) :
  l1 `sublist_of` l2 → ∀ n, drop n l1 `sublist_of` drop n l2.
Proof.
  induction 1 as [ | x l1 l2 H IH | x l1 l2 H IH ]; intros n.
  - by rewrite drop_nil.
  - destruct n as [ | n ]; [ by constructor | apply IH ].
  - destruct n as [ | n ]; [ by constructor | ]. cbn [drop].
    etrans; [ | apply IH ].
    replace (S n) with (n + 1)%nat by lia. rewrite <- drop_drop. apply sublist_drop.
Qed.

(** X3. Keeping more never deletes more: with a larger [keepDailyAmount]
    and a larger [keepMinimum] (either may stay as it was), the ids left
    for deletion are among those left before, in the same order. *)
Theorem keeping_more_deletes_no_more tz now project service
    keepDailyAmount1 keepMinimum1 keepDailyAmount2 keepMinimum2 versions :
  keepDailyAmount1 <= keepDailyAmount2 →
  keepMinimum1 <= keepMinimum2 →
  candidatesForDeletion
    (classify tz now project service keepDailyAmount2 keepMinimum2 versions)
  `sublist_of`
  candidatesForDeletion
    (classify tz now project service keepDailyAmount1 keepMinimum1 versions).
Proof.
  intros Hdays Hmin. unfold candidatesForDeletion.
  apply fmap_sublist. rewrite !classify_deleted.
  set (r1 := classify tz now project service keepDailyAmount1 keepMinimum1 versions).
  set (r2 := classify tz now project service keepDailyAmount2 keepMinimum2 versions).
  assert (Hsub : notDayKeeps (calls r2) `sublist_of` notDayKeeps (calls r1)).
  { pose proof (notDayKeeps_more_days now keepMinimum1 keepMinimum2
                  (sort (collectCandidates project service versions))
                  {| versionsForDays := trackedDays tz now keepDailyAmount1;
                     keptRecentVersions := [] |}
                  {| versionsForDays := trackedDays tz now keepDailyAmount2;
                     keptRecentVersions := [] |}) as H.
    rewrite !classify_filterCalls in H. apply H.
    cbn [versionsForDays]. intros k Hk.
    apply trackedDays_only in Hk as (_ & i & Hi & ->).
    apply trackedDays_tracked. lia. }
  etrans; [ | apply sublist_drop_drop, Hsub ].
  replace (Z.to_nat keepMinimum2)
    with (Z.to_nat keepMinimum1 + (Z.to_nat keepMinimum2 - Z.to_nat keepMinimum1))%nat
    by lia.
  rewrite <- drop_drop. apply sublist_drop.
Qed.

Lemma sublist_StronglySorted {A} (R : relation A) (l1 l2 : list A) :
  l1 `sublist_of` l2 → StronglySorted R l2 → StronglySorted R l1.
Proof.
  induction 1 as [ | x l1 l2 H IH | x l1 l2 H IH ]; intros Hs; [ done | | ].
  - apply StronglySorted_cons in Hs as [Hx Hs]. constructor; [ by apply IH | ].
    apply Forall_forall. intros y Hy. rewrite Forall_forall in Hx.
    apply Hx. by eapply elem_of_sublist.
  - apply StronglySorted_cons in Hs as [_ Hs]. by apply IH.
Qed.

(** X4. What is left for deletion is older than what is kept as recent:
    the versions kept as recent followed by the deletion candidates are the
    candidates not kept for a day, most recent first, so that no deletion
    candidate was deployed later than a version kept as recent, and the
    candidates reach [deleteVersions] most recent first. *)
Theorem deleted_are_the_oldest tz now project service
    keepDailyAmount keepMinimum versions :
  let r := classify tz now project service keepDailyAmount keepMinimum versions in
  recentKeeps (calls r) ++ answered true (calls r) = notDayKeeps (calls r)
  ∧ StronglySorted recentFirst (recentKeeps (calls r) ++ answered true (calls r))
  ∧ Forall (fun c' => Forall (fun c => recentFirst c c') (recentKeeps (calls r)))
           (answered true (calls r)).
Proof.
  intros r.
  pose proof (classify_filterCalls tz now project service keepDailyAmount
                keepMinimum versions) as Hcalls.
  fold r in Hcalls. cbv zeta in Hcalls.
  apply filterCalls_recent in Hcalls as [_ Htake].
  cbn [keptRecentVersions length] in Htake. rewrite Nat.sub_0_r in Htake.
  pose proof (classify_deleted tz now project service keepDailyAmount
                keepMinimum versions) as Hdrop.
  fold r in Hdrop. cbv zeta in Hdrop.
  assert (Hall : recentKeeps (calls r) ++ answered true (calls r)
                 = notDayKeeps (calls r)).
  { by rewrite Htake, Hdrop, take_drop. }
  assert (Hsorted : StronglySorted recentFirst
                      (recentKeeps (calls r) ++ answered true (calls r))).
  { rewrite Hall. eapply sublist_StronglySorted; [ apply notDayKeeps_sublist | ].
    unfold r. rewrite classify_subjects. apply sort_sorted. }
  split; [ done | ]. split; [ done | ].
  apply Forall_forall. intros c' Hc'. apply Forall_forall. intros c Hc.
  by eapply StronglySorted_app_1_elem_of.
Qed.

(** ** A rule switched off *)

Lemma no_day_kept now (calls : list (Candidate.t * Message * bool)) :
  Forall (verdict now) calls →
  daysKept calls = [] →
  notDayKeeps calls = (fst ∘ fst) <$> calls
  ∧ answered false calls = recentKeeps calls.
Proof.
  induction 1 as [ | [[c m] b] calls Hm _ IH ]; [ done | ].
  unfold answered, daysKept, recentKeeps, notDayKeeps in *.
  destruct Hm as [ [-> ->] | [ (n & -> & ->) | [-> ->] ] ];
    cbn in *; intros Hnone; [ done | | ];
    destruct (IH Hnone) as [E1 E2]; split; congruence.
Qed.

(** X5. With [keepDailyAmount] at 0 (or below) no day is tracked and
    nothing is kept for a day: the [keepMinimum] most recent candidates are
    kept and all the others are left for deletion. With [keepMinimum] at 0
    as well, every version in scope that serves no traffic is left for
    deletion. *)
Theorem without_the_daily_rule tz now project service
    keepDailyAmount keepMinimum versions :
  keepDailyAmount <= 0 →
  let r := classify tz now project service keepDailyAmount keepMinimum versions in
  let sorted := sort (collectCandidates project service versions) in
  daysKept (calls r) = []
  ∧ kept r = Candidate.id <$> take (Z.to_nat keepMinimum) sorted
  ∧ candidatesForDeletion r = Candidate.id <$> drop (Z.to_nat keepMinimum) sorted.
Proof.
  intros Hdays r sorted.
  pose proof (at_most_keepDailyAmount_days tz now project service keepDailyAmount
                keepMinimum versions) as Hnone.
  fold r in Hnone. cbv zeta in Hnone.
  replace (Z.to_nat keepDailyAmount) with 0%nat in Hnone by lia.
  destruct (daysKept (calls r)) as [ | ? ? ] eqn:Hkept; [ | cbn in Hnone; lia ].
  pose proof (classify_filterCalls tz now project service keepDailyAmount
                keepMinimum versions) as Hcalls.
  fold r in Hcalls. cbv zeta in Hcalls.
  pose proof (classify_verdicts tz now project service keepDailyAmount
                keepMinimum versions) as Hok.
  fold r in Hok.
  destruct (no_day_kept now (calls r) Hok Hkept) as [Hnot Hfalse].
  pose proof (classify_subjects tz now project service keepDailyAmount
                keepMinimum versions) as Hsub.
  fold r sorted in Hsub. rewrite Hsub in Hnot.
  apply filterCalls_recent in Hcalls as [_ Htake].
  cbn [keptRecentVersions length] in Htake. rewrite Nat.sub_0_r, Hnot in Htake.
  split; [ done | ]. unfold kept, candidatesForDeletion.
  rewrite Hfalse, Htake. split; [ done | ].
  pose proof (classify_deleted tz now project service keepDailyAmount
                keepMinimum versions) as Hdel.
  fold r in Hdel. cbv zeta in Hdel. by rewrite Hdel, Hnot.
Qed.

(** X6. With [keepMinimum] at 0 (or below) nothing is kept as recent: every
    version kept is kept for its day, so at most [keepDailyAmount] are, and
    every candidate not kept for a day is left for deletion. *)
Theorem without_the_recent_rule tz now project service
    keepDailyAmount keepMinimum versions :
  keepMinimum <= 0 →
  let r := classify tz now project service keepDailyAmount keepMinimum versions in
  recentKeeps (calls r) = []
  ∧ keptRecentVersions (final r) = []
  ∧ (∀ c m, (c, m, false) ∈ calls r →
       m = KeepingFor (keyOf c) (Candidate.id c) (now - Candidate.lastDeployed c))
  ∧ (length (kept r) ≤ Z.to_nat keepDailyAmount)%nat
  ∧ candidatesForDeletion r = Candidate.id <$> notDayKeeps (calls r).
Proof.
  intros Hmin r.
  pose proof (classify_filterCalls tz now project service keepDailyAmount
                keepMinimum versions) as Hcalls.
  fold r in Hcalls. cbv zeta in Hcalls.
  pose proof (classify_verdicts tz now project service keepDailyAmount
                keepMinimum versions) as Hok.
  fold r in Hok.
  pose proof (filterCalls_recent _ _ _ _ _ _ Hcalls) as [Hrecent Htake].
  cbn [keptRecentVersions length app] in Hrecent, Htake.
  replace (Z.to_nat keepMinimum - 0)%nat with 0%nat in Htake by lia.
  rewrite take_0 in Htake. rewrite Htake in Hrecent.
  split; [ done | ]. split; [ done | ]. split; [ | split ].
  - intros c m Hin. rewrite Forall_forall in Hok. specialize (Hok _ Hin).
    destruct Hok as [ [-> _] | [ (n & -> & _) | [_ ?] ] ]; [ done | | done ].
    assert (Hc : c ∈ recentKeeps (calls r)).
    { unfold recentKeeps. apply list_elem_of_omap. by eexists (c, _, false). }
    rewrite Htake in Hc. by apply elem_of_nil in Hc.
  - pose proof (answered_lengths now (calls r) Hok) as (Hlen & _).
    unfold kept. rewrite length_fmap, Hlen, Htake. cbn [length].
    rewrite Nat.add_0_r. apply at_most_keepDailyAmount_days.
  - pose proof (classify_deleted tz now project service keepDailyAmount
                  keepMinimum versions) as Hdel.
    fold r in Hdel. cbv zeta in Hdel. unfold candidatesForDeletion. rewrite Hdel.
    replace (Z.to_nat keepMinimum) with 0%nat by lia. by rewrite drop_0.
Qed.

(** ** The buckets in the end *)

Lemma filterCalls_buckets now keepMinimum k candidates st calls st' :
  filterCalls now keepMinimum st candidates = (calls, st') →
  match dayKeeps k calls with
  | [] => versionsForDays st' !! k = versionsForDays st !! k
  | c :: _ =>
      versionsForDays st !! k = Some None
      ∧ versionsForDays st' !! k = Some (Some (Candidate.id c))
  end.
Proof.
  intros H.
  destruct (decide (versionsForDays st !! k = Some None)) as [ Hk | Hk ];
    [ | by apply (filterCalls_day_idle _ _ k) in H as [-> ->]; [ | left ] ].
  destruct (decide (Exists (fun c => keyOf c = k) candidates)) as [ Hex | Hno ].
  - apply Exists_exists in Hex as (c0 & Hc0 & Hk0).
    destruct (first_of_day k candidates c0 Hc0 Hk0)
      as (before & c & after & -> & Hc & Hbefore).
    by apply (filterCalls_day_first _ _ k) in H as (-> & -> & _).
  - apply not_Exists_Forall in Hno; [ | apply _ ].
    by apply (filterCalls_day_idle _ _ k) in H as [-> ->]; [ | right ].
Qed.

(** X7. [versionsForDays] after the filter: its keys are those the loop
    set, none added and none removed; a bucket holds the id of the
    candidate kept for its day, and is as the loop left it ([null]) when
    no candidate was kept for that day. *)
Theorem buckets_after_the_filter tz now project service
    keepDailyAmount keepMinimum versions :
  let r := classify tz now project service keepDailyAmount keepMinimum versions in
  (∀ k, versionsForDays (final r) !! k
        = match dayKeeps k (calls r) with
          | [] => trackedDays tz now keepDailyAmount !! k
          | c :: _ => Some (Some (Candidate.id c))
          end)
  ∧ dom (versionsForDays (final r)) = dom (trackedDays tz now keepDailyAmount).
Proof.
  intros r.
  pose proof (classify_filterCalls tz now project service keepDailyAmount
                keepMinimum versions) as Hcalls.
  fold r in Hcalls. cbv zeta in Hcalls.
  split.
  - intros k. apply (filterCalls_buckets _ _ k) in Hcalls.
    destruct (dayKeeps k (calls r)); [ done | by destruct Hcalls ].
  - apply set_eq. intros k. rewrite !elem_of_dom.
    apply (filterCalls_buckets _ _ k) in Hcalls. cbn [versionsForDays] in Hcalls.
    destruct (dayKeeps k (calls r)); [ by rewrite Hcalls | ].
    destruct Hcalls as [-> ->]. split; eauto.
Qed.

(** X8. On a host whose offset from UTC does not change, the buckets the
    loop sets are exactly the UTC dates of the [keepDailyAmount] days that
    end today, each with [null]. *)
Theorem tracked_days_at_a_constant_offset tz offset now keepDailyAmount k :
  (∀ t isUTC, tz t isUTC = offset) →
  (trackedDays tz now keepDailyAmount !! k = Some None
   ↔ ∃ i, 0 <= i < keepDailyAmount
          ∧ k = substr_0_10 (Date.dateText (Date.Day now - i)))
  ∧ (trackedDays tz now keepDailyAmount !! k = Some None
     ∨ trackedDays tz now keepDailyAmount !! k = None).
Proof.
  intros Htz. split.
  - split.
    + intros (_ & i & Hi & ->)%trackedDays_only. exists i. split; [ done | ].
      by destruct (tracked_days_are_trailing tz offset now i Htz) as (_ & _ & ->).
    + intros (i & Hi & ->).
      destruct (tracked_days_are_trailing tz offset now i Htz) as (_ & _ & <-).
      by apply trackedDays_tracked.
  - destruct (trackedDays tz now keepDailyAmount !! k) as [ v | ] eqn:E; [ | by right ].
    apply trackedDays_only in E as [-> _]. by left.
Qed.

(** ** The key of a day *)

Lemma dayOfEra_date doe : 1 <= (Date.dayOfEra doe).2 <= 31.
Proof.
  unfold Date.dayOfEra. cbv zeta. cbn [snd].
  set (doy := doe - _). clearbody doy. Z.div_mod_to_equations. lia.
Qed.

Lemma civil_bounds days :
  1 <= (Date.civil days).1.2 <= 12 ∧ 1 <= (Date.civil days).2 <= 31.
Proof.
  unfold Date.civil.
  set (z := days + 719468). set (era := z / 146097).
  pose proof (dayOfEra_date (z - era * 146097)) as Hd.
  destruct (Date.dayOfEra (z - era * 146097)) as [[yoe m] d] eqn:E.
  apply dayOfEra_eraDay in E as (Hyoe & Hm & Hday).
  2: { pose proof (Z.mod_pos_bound z 146097 ltac:(lia)) as Hmod.
       rewrite Z.mod_eq in Hmod by lia. unfold era. lia. }
  cbn [fst snd] in *. done.
Qed.

(** A day number is known by its year, month and day of the month. *)
Lemma civil_inj days1 days2 : Date.civil days1 = Date.civil days2 → days1 = days2.
Proof.
  intros H.
  pose proof (MakeDay_civil days1 (Date.civil days1).2) as H1.
  pose proof (MakeDay_civil days2 (Date.civil days2).2) as H2.
  rewrite H in H1. lia.
Qed.

Lemma digit_inj a b : Date.digit a = Date.digit b → a mod 10 = b mod 10.
Proof.
  unfold Date.digit. intros H.
  apply (f_equal nat_of_ascii) in H.
  pose proof (Z.mod_pos_bound a 10 ltac:(lia)).
  pose proof (Z.mod_pos_bound b 10 ltac:(lia)).
  rewrite !nat_ascii_embedding in H by lia. lia.
Qed.

(** The key of a day of the years 0 to 9999 is its date in full. *)
Lemma dayKey_text day :
  0 <= (Date.civil day).1.1 <= 9999 →
  substr_0_10 (Date.dateText day)
  = Date.pad 4 (Date.civil day).1.1
      (String "-" (Date.pad 2 (Date.civil day).1.2
         (String "-" (Date.pad 2 (Date.civil day).2 "")))).
Proof.
  intros Hy. unfold Date.dateText, substr_0_10.
  destruct (Date.civil day) as [[y m] d]. cbn [fst snd] in *.
  replace ((0 <=? y) && (y <=? 9999)) with true by lia.
  cbn [Date.pad].
  repeat (change (String ?c ?s1 +:+ ?s2) with (String c (s1 +:+ s2))).
  done.
Qed.

(** X9. Within the years 0 to 9999, two instants have the same bucket key
    exactly when they are of the same UTC day: a bucket stands for one
    calendar day, and no two days share one. *)
Theorem same_key_same_day t1 t2 :
  0 <= Date.YearFromTime t1 <= 9999 →
  0 <= Date.YearFromTime t2 <= 9999 →
  dayKey t1 = dayKey t2 ↔ Date.Day t1 = Date.Day t2.
Proof.
  unfold Date.YearFromTime. intros Hy1 Hy2.
  rewrite !dayKey_Day. split; [ | by intros -> ].
  rewrite !dayKey_text by done.
  pose proof (civil_bounds (Date.Day t1)) as [Hm1 Hd1].
  pose proof (civil_bounds (Date.Day t2)) as [Hm2 Hd2].
  intros H. apply civil_inj.
  destruct (Date.civil (Date.Day t1)) as [[y1 m1] d1].
  destruct (Date.civil (Date.Day t2)) as [[y2 m2] d2].
  cbn [fst snd Date.pad] in *.
  injection H as Ha Hb Hc Hd He Hf Hg Hh.
  apply digit_inj in Ha, Hb, Hc, Hd, He, Hf, Hg, Hh.
  assert (y1 = y2 ∧ m1 = m2 ∧ d1 = d2) as (-> & -> & ->); [ | done ].
  clear -Ha Hb Hc Hd He Hf Hg Hh Hy1 Hy2 Hm1 Hm2 Hd1 Hd2.
  Z.div_mod_to_equations. lia.
Qed.

(** ** The order of the listing *)

Lemma sortInsert_deployed_at t x l :
  filter (fun c => Candidate.lastDeployed c = t) (sortInsert x l)
  = filter (fun c => Candidate.lastDeployed c = t) (x :: l).
Proof.
  induction l as [ | y l IH ]; [ done | ].
  cbn [sortInsert]. destruct (0 <? compareFn x y) eqn:E; [ | done ].
  apply Z.ltb_lt in E. unfold compareFn in E.
  rewrite filter_cons, IH, !filter_cons.
  repeat case_decide; try done; lia.
Qed.

Lemma sort_deployed_at t l :
  filter (fun c => Candidate.lastDeployed c = t) (sort l)
  = filter (fun c => Candidate.lastDeployed c = t) l.
Proof.
  induction l as [ | x l IH ]; [ done | ].
  cbn [sort foldr]. fold (sort l).
  by rewrite sortInsert_deployed_at, !filter_cons, IH.
Qed.

Lemma filter_fmap_list {A B} (f : A → B) (P : B → Prop) `{!∀ x, Decision (P x)}
    (l : list A) :
  filter P (f <$> l) = f <$> filter (fun x => P (f x)) l.
Proof.
  induction l as [ | x l IH ]; [ done | ].
  rewrite fmap_cons, !filter_cons, IH. by case_decide.
Qed.

(** X10. Versions deployed at the same instant are visited in the order of
    the listing: the sort moves no candidate past another of the same
    time. *)
Theorem same_instant_in_listing_order tz now project service
    keepDailyAmount keepMinimum versions t :
  let r := classify tz now project service keepDailyAmount keepMinimum versions in
  filter (fun c => Candidate.lastDeployed c = t) ((fst ∘ fst) <$> calls r)
  = candidateOf
    <$> filter (fun v => Version.last_deployed_time v = t ∧ inScope project service v)
               versions.
Proof.
  cbv zeta. rewrite classify_subjects, sort_deployed_at, collectCandidates_filter.
  by rewrite filter_fmap_list, list_filter_filter.
Qed.

Lemma NoDup_fmap_eq {A B} (f : A → B) (l : list A) x y :
  NoDup (f <$> l) → x ∈ l → y ∈ l → f x = f y → x = y.
Proof.
  induction l as [ | z l IH ]; intros Hnd Hx Hy Hf; [ by apply elem_of_nil in Hx | ].
  rewrite fmap_cons in Hnd. apply NoDup_cons in Hnd as [Hz Hnd].
  apply elem_of_cons in Hx as [ -> | Hx ]; apply elem_of_cons in Hy as [ -> | Hy ].
  - done.
  - destruct Hz. rewrite Hf. by apply list_elem_of_fmap_2.
  - destruct Hz. rewrite <- Hf. by apply list_elem_of_fmap_2.
  - by apply IH.
Qed.

(** X11. Where the versions in scope that serve no traffic were deployed
    at distinct times, the order in which [gcloud] lists the versions is
    immaterial: a listing with the same versions in another order gives
    the same calls, messages, kept ids and deletion candidates. *)
Theorem listing_order_is_immaterial tz now project service
    keepDailyAmount keepMinimum versions1 versions2 :
  versions1 ≡ₚ versions2 →
  NoDup (Version.last_deployed_time <$> filter (inScope project service) versions1) →
  classify tz now project service keepDailyAmount keepMinimum versions1
  = classify tz now project service keepDailyAmount keepMinimum versions2.
Proof.
  intros Hperm Hnodup. unfold classify.
  replace (sort (collectCandidates project service versions2))
    with (sort (collectCandidates project service versions1)); [ done | ].
  assert (Hp : collectCandidates project service versions1
               ≡ₚ collectCandidates project service versions2).
  { rewrite !collectCandidates_filter. by rewrite Hperm. }
  apply (StronglySorted_unique_strong recentFirst); try apply sort_sorted.
  - intros c1 c2 H1 H2 H12 H21.
    rewrite sort_Permutation in H1. rewrite sort_Permutation, <- Hp in H2.
    apply (NoDup_fmap_eq Candidate.lastDeployed
             (collectCandidates project service versions1)); try done.
    + rewrite collectCandidates_filter, <- list_fmap_compose. done.
    + unfold recentFirst in *. lia.
  - by rewrite !sort_Permutation.
Qed.

(** ** The disk usage *)

Lemma sortInsert_sameButUsage x x' l l' :
  sameButUsage x x' → Forall2 sameButUsage l l' →
  Forall2 sameButUsage (sortInsert x l) (sortInsert x' l').
Proof.
  intros [Hid Ht]. induction 1 as [ | y y' l l' [Hyid Hyt] Hl IH ]; cbn [sortInsert].
  - by repeat constructor.
  - unfold compareFn. rewrite Ht, Hyt.
    destruct (0 <? _); repeat constructor; done.
Qed.

Lemma sort_sameButUsage l l' :
  Forall2 sameButUsage l l' → Forall2 sameButUsage (sort l) (sort l').
Proof.
  induction 1 as [ | x x' l l' Hx Hl IH ]; [ constructor | ].
  cbn [sort foldr]. by apply sortInsert_sameButUsage.
Qed.

Lemma filterCalls_sameButUsage now keepMinimum candidates candidates' :
  Forall2 sameButUsage candidates candidates' →
  ∀ st,
    (snd <$> (filterCalls now keepMinimum st candidates').1)
    = (snd <$> (filterCalls now keepMinimum st candidates).1)
    ∧ ((snd ∘ fst) <$> (filterCalls now keepMinimum st candidates').1)
      = ((snd ∘ fst) <$> (filterCalls now keepMinimum st candidates).1)
    ∧ ((Candidate.id ∘ fst ∘ fst) <$> (filterCalls now keepMinimum st candidates').1)
      = ((Candidate.id ∘ fst ∘ fst) <$> (filterCalls now keepMinimum st candidates).1)
    ∧ (filterCalls now keepMinimum st candidates').2
      = (filterCalls now keepMinimum st candidates).2.
Proof.
  induction 1 as [ | c c' rest rest' [Hid Ht] Hrest IH ]; intros st; [ done | ].
  rewrite !filterCalls_cons.
  assert (E : keepOrDelete now keepMinimum st c' = keepOrDelete now keepMinimum st c).
  { unfold keepOrDelete. by rewrite Hid, Ht. }
  rewrite E. destruct (keepOrDelete now keepMinimum st c) as [[st1 m] b].
  specialize (IH st1).
  destruct (filterCalls now keepMinimum st1 rest) as [calls1 st2].
  destruct (filterCalls now keepMinimum st1 rest') as [calls1' st2'].
  cbn [fst snd fmap list_fmap compose] in *.
  destruct IH as (-> & -> & -> & ->). by rewrite Hid.
Qed.

Lemma answered_ids b (calls : list (Candidate.t * Message * bool)) :
  Candidate.id <$> answered b calls
  = omap (fun '(id, b') => if Bool.eqb b b' then Some id else None)
         (zip ((Candidate.id ∘ fst ∘ fst) <$> calls) (snd <$> calls)).
Proof.
  induction calls as [ | [[c m] b'] calls IH ]; [ done | ].
  unfold answered in *. cbn [omap list_omap fmap list_fmap zip zip_with compose fst snd].
  destruct (Bool.eqb b b'); cbn; by rewrite IH.
Qed.

(** X12. The disk usage of a version plays no part: whatever
    [diskUsageBytes] the listing gives, present or not, number or not, the
    ids kept, the ids left for deletion, the messages logged and the
    buckets are the same. *)
Theorem disk_usage_plays_no_part tz now project service
    keepDailyAmount keepMinimum versions (f : Version.t → option string) :
  let r := classify tz now project service keepDailyAmount keepMinimum versions in
  let r' := classify tz now project service keepDailyAmount keepMinimum
              (withDiskUsage f <$> versions) in
  kept r' = kept r
  ∧ candidatesForDeletion r' = candidatesForDeletion r
  ∧ (snd ∘ fst) <$> calls r' = (snd ∘ fst) <$> calls r
  ∧ final r' = final r.
Proof.
  intros r r'.
  assert (Hcs : Forall2 sameButUsage
                  (sort (collectCandidates project service versions))
                  (sort (collectCandidates project service (withDiskUsage f <$> versions)))).
  { apply sort_sameButUsage.
    induction versions as [ | v rest IH ]; [ constructor | ].
    cbn [fmap list_fmap collectCandidates].
    change (skipped project service (withDiskUsage f v))
      with (skipped project service v).
    destruct (skipped project service v); [ done | ].
    constructor; [ done | apply IH ]. }
  pose proof (filterCalls_sameButUsage now keepMinimum _ _ Hcs
                {| versionsForDays := trackedDays tz now keepDailyAmount;
                   keptRecentVersions := [] |}) as H.
  rewrite !classify_filterCalls in H. fold r r' in H. cbn [fst snd] in H.
  destruct H as (Hb & Hm & Hi & Hf).
  unfold kept, candidatesForDeletion. rewrite !answered_ids, Hb, Hi. done.
Qed.

Lemma digitValue_digit d : 0 <= d < 10 → digitValue 10 (Date.digit d) = Some d.
Proof.
  intros Hd.
  assert (d = 0 ∨ d = 1 ∨ d = 2 ∨ d = 3 ∨ d = 4 ∨ d = 5 ∨ d = 6 ∨ d = 7 ∨ d = 8 ∨ d = 9)
    as H by lia.
  repeat (destruct H as [ -> | H ]; [ reflexivity | ]). by subst.
Qed.

Lemma digitsValue_Digits s v L :
  Digits s v L →
  ∀ x, digitsValue 10 s (Some x) = Some (x * 10 ^ Z.of_nat L + v).
Proof.
  induction 1 as [ | d s v L Hd Hs IH ]; intros x.
  - cbn. f_equal. lia.
  - cbn [digitsValue]. rewrite digitValue_digit by done. rewrite IH. f_equal.
    cbn [default]. rewrite Nat2Z.inj_succ, Z.pow_succ_r by lia. unfold id. ring.
Qed.

Lemma decimal_Digits fuel :
  ∀ n acc v L,
    0 <= n < 2 ^ Z.of_nat fuel → (0 < fuel)%nat → Digits acc v L →
    ∃ d s v' L',
      0 <= d < 10 ∧ decimal fuel n acc = String (Date.digit d) s
      ∧ Digits s v' L'
      ∧ d * 10 ^ Z.of_nat L' + v' = n * 10 ^ Z.of_nat L + v.
Proof.
  induction fuel as [ | fuel IH ]; intros n acc v L Hn Hfuel Hacc; [ lia | ].
  cbn [decimal]. destruct (Z.ltb_spec n 10) as [ Hsmall | Hbig ].
  - exists n, acc, v, L. split; [ lia | done ].
  - rewrite Nat2Z.inj_succ, Z.pow_succ_r in Hn by lia.
    assert (Hdigit : Date.digit n = Date.digit (n mod 10)).
    { unfold Date.digit. by rewrite Z.mod_mod by lia. }
    rewrite Hdigit.
    destruct (IH (n / 10) (String (Date.digit (n mod 10)) acc)
                ((n mod 10) * 10 ^ Z.of_nat L + v) (S L))
      as (d & s & v' & L' & Hd & -> & Hs & Hv).
    + split; [ apply Z.div_pos; lia | ].
      apply Z.div_lt_upper_bound; lia.
    + destruct fuel; [ | lia ]. cbn in Hn. lia.
    + constructor; [ apply Z.mod_pos_bound; lia | done ].
    + exists d, s, v', L'. split; [ done | ]. split; [ done | ]. split; [ done | ].
      rewrite Hv, Nat2Z.inj_succ, Z.pow_succ_r by lia.
      pose proof (Z.div_mod n 10 ltac:(lia)). nia.
Qed.

(** The ten cases of a decimal digit. *)
Ltac digit_cases d H :=
  let E := fresh in
  assert (d = 0 ∨ d = 1 ∨ d = 2 ∨ d = 3 ∨ d = 4 ∨ d = 5 ∨ d = 6 ∨ d = 7 ∨ d = 8 ∨ d = 9)
    as E by lia;
  clear H;
  repeat (destruct E as [ -> | E ]; [ | ]); [ .. | subst d ].

Lemma parseInt_Digits d s v L :
  0 <= d < 10 → Digits s v L →
  parseInt (Some (String (Date.digit d) s))
  = toDouble false (d * 10 ^ Z.of_nat L + v).
Proof.
  intros Hd Hs.
  assert (Hvalue : digitsValue 10 (String (Date.digit d) s) None
                   = Some (d * 10 ^ Z.of_nat L + v)).
  { cbn [digitsValue]. rewrite digitValue_digit by done.
    by rewrite (digitsValue_Digits s v L). }
  unfold parseInt. cbn [default from_option id].
  destruct (decide (d = 0)) as [ -> | Hnz ].
  - change (Date.digit 0) with "0"%char in *.
    change (trimStart (String "0" s)) with (String "0" s).
    destruct Hs as [ | d2 s2 v2 L2 Hd2 Hs2 ]; [ reflexivity | ].
    digit_cases d2 Hd2;
      match goal with
      | |- context [Date.digit ?k] =>
          let c := eval vm_compute in (Date.digit k) in
          change (Date.digit k) with c in *
      end;
      cbv beta iota; by rewrite Hvalue.
  - digit_cases d Hd; try done;
      match goal with
      | |- context [Date.digit ?k] =>
          let c := eval vm_compute in (Date.digit k) in
          change (Date.digit k) with c in *
      end;
      match goal with
      | |- context [trimStart ?s] => change (trimStart s) with s
      end;
      cbv beta iota; by rewrite Hvalue.
Qed.

(** The decimal text of [n] is read back as the integer [n]. *)
Lemma parseInt_Z_text n : 0 <= n → parseInt (Some (Z_text n)) = toDouble false n.
Proof.
  intros Hn. unfold Z_text. replace (n <? 0) with false by lia.
  rewrite Z.abs_eq by done.
  destruct (decimal_Digits (S (Z.to_nat (Z.log2 n))) n "" 0 0)
    as (d & s & v' & L' & Hd & -> & Hs & Hv); [ | lia | constructor | ].
  - split; [ done | ]. rewrite Nat2Z.inj_succ, Z2Nat.id by apply Z.log2_nonneg.
    destruct (decide (n = 0)) as [ -> | Hpos ]; [ done | ].
    apply Z.log2_spec. lia.
  - rewrite (parseInt_Digits d s v' L') by done. f_equal. lia.
Qed.

(** The integers up to 2^53 are doubles. *)
Lemma nearestDouble_safe n : 0 <= n <= 2 ^ 53 → nearestDouble n = Some n.
Proof.
  intros Hn. destruct (decide (n = 2 ^ 53)) as [ -> | Hlt ]; [ by vm_compute | ].
  unfold nearestDouble. cbv zeta.
  replace (Z.log2 n <? 53) with true; [ done | ].
  symmetry. apply Z.ltb_lt.
  destruct (decide (n = 0)) as [ -> | Hpos ]; [ done | ].
  apply Z.log2_lt_pow2; lia.
Qed.

(** X21. The usage of a candidate is the number the listing gives, as a
    double: for a version whose [diskUsageBytes] is the decimal text of
    [n], it is the double nearest to [n], which is [n] itself up to 2^53
    and may be another integer, or Infinity, above; for a version without
    [diskUsageBytes] it is 0. *)
Theorem usage_is_the_number_listed v n :
  0 <= n →
  (Version.diskUsageBytes v = Some (Z_text n) →
     Candidate.usage (candidateOf v) = orZero (toDouble false n)
     ∧ (n <= 2 ^ 53 → Candidate.usage (candidateOf v) = Finite false n))
  ∧ (Version.diskUsageBytes v = None →
       Candidate.usage (candidateOf v) = Finite false 0).
Proof.
  intros Hn. unfold candidateOf. cbn [Candidate.usage].
  split; intros ->; [ | reflexivity ].
  rewrite parseInt_Z_text by done. split; [ done | ].
  intros Hsafe. unfold toDouble. rewrite nearestDouble_safe by lia.
  by destruct n.
Qed.

(** Above 2^53 the number is rounded: 2^53 + 1 is read as 2^53, 2^53 + 3
    as 2^53 + 4, and a number of 400 digits as Infinity. *)
Example usage_above_2_53_is_rounded :
  parseInt (Some "9007199254740993") = Finite false 9007199254740992
  ∧ parseInt (Some "9007199254740995") = Finite false 9007199254740996
  ∧ parseInt (Some (Z_text (10 ^ 399))) = Infinity false
  ∧ parseInt (Some "-0") = Finite true 0
  ∧ orZero (parseInt (Some "-0")) = Finite false 0
  ∧ orZero (parseInt (Some "many")) = Finite false 0.
Proof. by vm_compute. Qed.

(** ** The messages of the filter *)

Lemma filterCalls_numbers now keepMinimum candidates st calls st' :
  filterCalls now keepMinimum st candidates = (calls, st') →
  recentNumbers calls
  = seq (length (keptRecentVersions st) + 1) (length (recentKeeps calls)).
Proof.
  revert st calls st'.
  induction candidates as [ | c rest IH ]; intros st calls st' H.
  - by injection H as <- _.
  - rewrite filterCalls_cons in H.
    destruct (keepOrDelete now keepMinimum st c) as [[st1 m] b] eqn:E.
    destruct (filterCalls now keepMinimum st1 rest) as [calls1 st2] eqn:E1.
    injection H as <- <-. apply IH in E1.
    destruct (keepOrDelete_cases now keepMinimum st c)
      as [ (_ & E') | [ (_ & _ & E') | (_ & _ & E') ] ];
      rewrite E' in E; injection E as Hst Hm Hb; subst st1 m b; clear E';
      unfold recentNumbers, recentKeeps in *; cbn [omap list_omap] in *;
      cbn [keptRecentVersions] in *; [ done | | done ].
    rewrite E1, length_app. cbn [length seq]. do 2 f_equal. lia.
Qed.

(** X13. The filter logs one message for each version in scope that serves
    no traffic, about that version: its id, the time since it was
    deployed, and "Keeping for" with the key of its day, "Keeping for
    recent" or "Deleting", the last exactly when the version is left for
    deletion. The versions kept as recent are numbered 1, 2, 3, ... in the
    order of the messages. *)
Theorem log_of_the_filter tz now project service keepDailyAmount keepMinimum versions :
  let r := classify tz now project service keepDailyAmount keepMinimum versions in
  Forall (verdict now) (calls r)
  ∧ length (calls r) = length (filter (inScope project service) versions)
  ∧ recentNumbers (calls r) = seq 1 (length (recentKeeps (calls r))).
Proof.
  intros r.
  pose proof (classify_filterCalls tz now project service keepDailyAmount
                keepMinimum versions) as Hcalls.
  fold r in Hcalls. cbv zeta in Hcalls.
  split; [ apply classify_verdicts | ]. split.
  - pose proof (classify_subjects tz now project service keepDailyAmount
                  keepMinimum versions) as Hsub.
    fold r in Hsub. apply (f_equal length) in Hsub.
    rewrite length_fmap in Hsub. rewrite Hsub.
    by rewrite sort_Permutation, collectCandidates_filter, length_fmap.
  - by apply filterCalls_numbers in Hcalls.
Qed.

(** ** The calls of [deleteVersions], whatever they return *)

Lemma batches_pos n : (0 < n → 1 ≤ batches n)%nat.
Proof.
  intros Hn. pose proof (batches_ceiling n) as [_ Hhigh].
  unfold deleteAtMost in *. lia.
Qed.

Section Calls.
Context (h : Host) (log : option LogSink) (project service : JsValue).

Local Abbreviation call rest := (fun j => deleteArguments project service (chunk j rest)).
Local Abbreviation result w rest :=
  (fun j => gcloud h (length (spawned w) + j) (call rest j)).

(** Whatever the calls return, the loop makes them on the chunks in order
    and stops at the first that does not succeed. *)
Lemma deleteLoop_calls fuel :
  ∀ copy done w rest out w',
    heap w !! copy = Some rest →
    (length rest ≤ fuel)%nat →
    deleteLoop h log project service fuel copy done w = (out, w') →
    ∃ n, (n ≤ batches (length rest))%nat
      ∧ spawned w' = spawned w ++ (call rest <$> seq 0 n)
      ∧ (∀ j, (S j < n)%nat → succeeds (result w rest j))
      ∧ match out with
        | Normal d =>
            (n = batches (length rest) ∧ d = done + Z.of_nat (length rest)
             ∧ ∀ j, (j < n)%nat → succeeds (result w rest j))
            ∨ (∃ k, n = S k ∧ d = done + Z.of_nat (k * deleteAtMost)
                    ∧ fails (result w rest k))
        | Throw e =>
            (log = None ∧ rest ≠ [] ∧ n = 0%nat
             ∧ e = TypeError "log is not a function")
            ∨ (∃ k, n = S k ∧ e = SyntaxError
                    ∧ status (result w rest k) = Some 0
                    ∧ stdout (result w rest k) = NotJson)
        | Unfinished => False
        end.
Proof.
  assert (Hnil : ∀ done w,
    ∃ n, (n ≤ batches (@length JsValue []))%nat
      ∧ spawned w = spawned w ++ (call [] <$> seq 0 n)
      ∧ (∀ j, (S j < n)%nat → succeeds (result w [] j))
      ∧ ((n = batches (@length JsValue []) ∧ done = done + Z.of_nat (@length JsValue [])
          ∧ ∀ j, (j < n)%nat → succeeds (result w [] j))
         ∨ (∃ k, n = S k ∧ done = done + Z.of_nat (k * deleteAtMost)
                 ∧ fails (result w [] k)))).
  { intros done w. exists 0%nat. cbn [seq fmap list_fmap length].
    rewrite app_nil_r. split; [ lia | ]. split; [ done | ].
    split; [ intros; lia | ]. left. split; [ done | ]. split; [ lia | intros; lia ]. }
  induction fuel as [ | fuel IH ]; intros copy done w rest out w' Hcopy Hfuel Hrun;
    rewrite deleteLoop_unfold, Hcopy in Hrun.
  { destruct rest; [ | cbn in Hfuel; lia ]. injection Hrun as <- <-. apply Hnil. }
  destruct rest as [ | x rest' ]; [ injection Hrun as <- <-; apply Hnil | ].
  cbv beta iota zeta in Hrun. set (rest := x :: rest') in *.
  assert (Hpos : (1 ≤ batches (length rest))%nat) by (apply batches_pos; cbn; lia).
  destruct log as [ sink | ] eqn:Hlog.
  2: { injection Hrun as <- <-. exists 0%nat. cbn [seq fmap list_fmap].
       rewrite app_nil_r. split; [ lia | ]. split; [ done | ].
       split; [ intros; lia | ]. left. done. }
  revert Hrun. rewrite spawned_logged, app_nil_r. spawned_of_stored.
  set (r := gcloud h (length (spawned w))
              (deleteArguments project service (take deleteAtMost rest))).
  assert (Hr : result w rest 0%nat = r).
  { cbv beta. by rewrite Nat.add_0_r. }
  set (w3 := logged (logged (logged (stored w copy (drop deleteAtMost rest)) _) _) _).
  assert (Hsp3 : spawned w3 = spawned w ++ (call rest <$> seq 0 1)).
  { unfold w3. rewrite !spawned_logged, !app_nil_r. by spawned_of_stored. }
  case_bool_decide as Hstatus.
  { intros [= <- <-]. exists 1%nat. split; [ done | ].
    rewrite spawned_logged, app_nil_r. split; [ done | ].
    split; [ intros; lia | ]. right. exists 0%nat.
    split; [ done | ]. split; [ cbn; lia | ]. unfold fails. by rewrite Hr. }
  assert (Hzero : status r = Some 0).
  { destruct (decide (status r = Some 0)); [ done | by destruct Hstatus ]. }
  destruct (stdout r) as [ parsed | ] eqn:Hout.
  2: { intros [= <- <-]. exists 1%nat. split; [ done | ]. split; [ done | ].
       split; [ intros; lia | ]. right. exists 0%nat. by rewrite Hr. }
  intros Hrun.
  assert (Hlt : (copy < length (heap w))%nat) by (by eapply lookup_lt_Some).
  apply (IH _ _ _ (drop deleteAtMost rest)) in Hrun
    as (n & Hn & Hsp & Hok & Hend).
  2: { unfold w3. cbn [logged stored heap]. by rewrite list_lookup_insert_eq. }
  2: { rewrite length_drop. unfold deleteAtMost. cbn [length] in *. lia. }
  assert (Hsp4 : spawned (logged w3 (InfoPrinted parsed)) = spawned w ++ [call rest 0%nat]).
  { by rewrite spawned_logged, app_nil_r. }
  assert (Hshift : ∀ j, result (logged w3 (InfoPrinted parsed)) (drop deleteAtMost rest) j
                        = result w rest (S j)).
  { intros j. cbv beta. rewrite chunk_drop, Hsp4, length_app. cbn [length].
    by replace (length (spawned w) + 1 + j)%nat with (length (spawned w) + S j)%nat by lia. }
  assert (Hfirst : succeeds (result w rest 0%nat)).
  { rewrite Hr. split; [ done | ]. by rewrite Hout. }
  assert (Hall : ∀ m, (∀ j, (j < m)%nat →
                         succeeds (result (logged w3 (InfoPrinted parsed))
                                     (drop deleteAtMost rest) j)) →
                      ∀ j, (j < S m)%nat → succeeds (result w rest j)).
  { intros m Hm [ | j ] Hj; [ done | ]. rewrite <- Hshift. apply Hm. lia. }
  rewrite length_drop, batches_drop in Hn by (cbn; lia).
  exists (S n). split; [ lia | ]. split; [ | split ].
  - rewrite Hsp, Hsp4, <- app_assoc. f_equal. cbn [seq fmap list_fmap app].
    f_equal. rewrite <- fmap_S_seq, <- list_fmap_compose.
    apply list_fmap_ext. intros ? j ?. unfold compose. by rewrite chunk_drop.
  - intros j Hj. apply (Hall (n - 1)%nat); [ | lia ].
    intros j' Hj'. apply Hok. lia.
  - destruct out as [ d | e | ]; [ | | done ].
    + destruct Hend as [ (-> & -> & Hsucc) | (k & -> & -> & Hfail) ]; [ left | right ].
      * rewrite length_drop, batches_drop by (cbn; lia).
        split; [ lia | ]. split.
        -- rewrite length_take. unfold deleteAtMost. lia.
        -- apply Hall. intros j Hj. apply Hsucc.
           rewrite length_drop, batches_drop by (cbn; lia). lia.
      * exists (S k). split; [ done | ]. split; [ | by rewrite <- Hshift ].
        assert (4 < length rest)%nat.
        { pose proof (batches_ceiling (length rest)) as [Hlow _].
          change (length rest) with (S (length rest')) in Hlow at 3.
          cbn [Nat.eqb Nat.b2n] in Hlow. unfold deleteAtMost in *. lia. }
        rewrite length_take. unfold deleteAtMost. lia.
    + destruct Hend as [ (? & _) | (k & -> & -> & Hst & Hso) ]; [ done | right ].
      exists (S k). by rewrite <- Hshift.
Qed.
End Calls.

Lemma copied_lookup w (a : list JsValue) :
  heap (copied w a) !! length (heap w) = Some a.
Proof.
  unfold copied. cbn [heap]. rewrite lookup_app_r by lia. by rewrite Nat.sub_diag.
Qed.

(** X14. Whatever the child processes return, [deleteVersions] with valid
    ids calls [gcloud] on the chunks of up to four ids in order, each chunk
    once, and stops at the first call that does not succeed: every call
    but the last made has succeeded. A count it returns is the number of
    ids [L], after [batches L] calls that all succeeded, or [4 * k] where
    the call number [k] (from 0) failed. An exception it throws is that of
    a missing log function, before any call, or that of [JSON.parse] on
    the output of a call that exited with 0. *)
Theorem calls_stop_at_the_first_failure h options versions a w out w' :
  heap w !! versions = Some a →
  Forall (fun v => badVersion v = false) a →
  deleteVersions h options versions w = (out, w') →
  let L := length a in
  let call j :=
    deleteArguments (destructure options).1.2 (destructure options).2 (chunk j a) in
  let result j := gcloud h (length (spawned w) + j) (call j) in
  ∃ n, (n ≤ batches L)%nat
    ∧ spawned w' = spawned w ++ (call <$> seq 0 n)
    ∧ (∀ j, (S j < n)%nat → succeeds (result j))
    ∧ match out with
      | Normal d =>
          (n = batches L ∧ d = Z.of_nat L ∧ ∀ j, (j < n)%nat → succeeds (result j))
          ∨ (∃ k, n = S k ∧ d = Z.of_nat (k * deleteAtMost) ∧ fails (result k))
      | Throw e =>
          ((destructure options).1.1 = None ∧ a ≠ [] ∧ n = 0%nat
           ∧ e = TypeError "log is not a function")
          ∨ (∃ k, n = S k ∧ e = SyntaxError
                  ∧ status (result k) = Some 0 ∧ stdout (result k) = NotJson)
      | Unfinished => False
      end.
Proof.
  intros Hread Hvalid Hrun L call result.
  rewrite (deleteVersions_valid h options versions a w Hread Hvalid) in Hrun.
  apply (deleteLoop_calls _ _ _ _ _ _ _ _ a) in Hrun;
    [ | apply copied_lookup | done ].
  change (spawned (copied w a)) with (spawned w) in Hrun.
  destruct Hrun as (n & Hn & Hsp & Hok & Hend).
  exists n. split; [ done | ]. split; [ done | ]. split; [ done | ].
  destruct out as [ d | e | ]; [ | done | done ].
  by rewrite !Z.add_0_l in Hend.
Qed.

Lemma chunk_sublist j (a : list JsValue) : chunk j a `sublist_of` a.
Proof. unfold chunk. etrans; [ apply sublist_take | apply sublist_drop ]. Qed.

(** X15. No unsafe id reaches the command line: whatever the options, the
    ids and the outcome, each child process that [deleteVersions] runs is
    a delete call for one to four of the caller's ids, in the caller's
    order, none of which starts with a minus sign or has a backslash in
    it. *)
Theorem only_safe_ids_reach_gcloud h options versions a w out w' :
  heap w !! versions = Some a →
  deleteVersions h options versions w = (out, w') →
  ∃ made,
    spawned w' = spawned w ++ made
    ∧ ∀ args, args ∈ made →
        ∃ next,
          args = deleteArguments (destructure options).1.2 (destructure options).2 next
          ∧ next ≠ []
          ∧ (length next ≤ deleteAtMost)%nat
          ∧ next `sublist_of` a
          ∧ Forall (fun v => ¬ unsafeId v) next.
Proof.
  intros Hread Hrun.
  destruct (decide (Forall (fun v => badVersion v = false) a)) as [ Hok | Hbad ].
  - rewrite (deleteVersions_valid h options versions a w Hread Hok) in Hrun.
    apply (deleteLoop_calls _ _ _ _ _ _ _ _ a) in Hrun;
      [ | apply copied_lookup | done ].
    change (spawned (copied w a)) with (spawned w) in Hrun.
    destruct Hrun as (n & Hn & Hsp & _).
    eexists. split; [ exact Hsp | ].
    intros args (j & -> & Hj)%list_elem_of_fmap. apply elem_of_seq in Hj.
    exists (chunk j a). split; [ done | ].
    pose proof (batches_lt (S j) (length a) ltac:(lia)) as Hmore.
    replace (S j - 1)%nat with j in Hmore by lia.
    split; [ | split; [ | split ] ].
    + intros Hnil. apply (f_equal length) in Hnil. unfold chunk in Hnil.
      rewrite length_take, length_drop in Hnil. unfold deleteAtMost in *.
      cbn [length] in Hnil. lia.
    + unfold chunk. rewrite length_take. lia.
    + apply chunk_sublist.
    + apply Forall_forall. intros v Hv Hunsafe.
      apply badVersion_unsafe in Hunsafe.
      eapply elem_of_sublist in Hv; [ | apply chunk_sublist ].
      rewrite Forall_forall in Hok. specialize (Hok v Hv). congruence.
  - apply not_Forall_Exists in Hbad; [ | apply _ ].
    destruct (deleteVersions_invalid h options versions a w Hread)
      as (v & _ & _ & Hthrow).
    + eapply Exists_impl; [ exact Hbad | ]. intros v. cbn. by destruct (badVersion v).
    + rewrite Hthrow in Hrun. injection Hrun as _ <-.
      exists []. rewrite app_nil_r. split; [ done | ].
      intros args Hin. by apply elem_of_nil in Hin.
Qed.

(** X16. Options without a log function (the project string that
    [purgeOldVersionsFor] passes has none): for the empty list
    [deleteVersions] returns 0; for any other list of valid ids it throws
    "log is not a function" when it announces the first chunk, having run
    no child process and taken that chunk off its copy. *)
Theorem without_a_log_function h options versions a w :
  (destructure options).1.1 = None →
  heap w !! versions = Some a →
  Forall (fun v => badVersion v = false) a →
  deleteVersions h options versions w
  = match a with
    | [] => (Normal 0, copied w a)
    | _ :: _ =>
        (Throw (TypeError "log is not a function"),
         stored (copied w a) (length (heap w)) (drop deleteAtMost a))
    end.
Proof.
  intros Hlog Hread Hvalid.
  rewrite (deleteVersions_valid h options versions a w Hread Hvalid), Hlog.
  rewrite deleteLoop_unfold, copied_lookup.
  destruct a as [ | x a' ]; [ done | ]. done.
Qed.

Section Announced.
Context (h : Host) (log : option LogSink) (project service : JsValue).

(** The events the loop adds: each child process directly follows the
    message that names its ids, and its standard error is written next. *)
Lemma deleteLoop_announced fuel :
  ∀ copy done w out w',
    deleteLoop h log project service fuel copy done w = (out, w') →
    ∃ more,
      trace w' = trace w ++ more
      ∧ ∀ i args, more !! i = Some (Spawned args) →
          ∃ i' sink next s,
            i = S i' ∧ log = Some sink
            ∧ more !! i' = Some (Logged sink (EnactingDeletion next))
            ∧ args = deleteArguments project service next
            ∧ more !! S i = Some (StderrWritten s).
Proof.
  assert (Hnone : ∀ w w1, trace w1 = trace w → ∃ more : list Event,
    trace w1 = trace w ++ more
    ∧ ∀ i args, more !! i = Some (Spawned args) →
        ∃ i' sink next s,
          i = S i' ∧ log = Some sink
          ∧ more !! i' = Some (Logged sink (EnactingDeletion next))
          ∧ args = deleteArguments project service next
          ∧ more !! S i = Some (StderrWritten s)).
  { intros w w1 ->. exists []. rewrite app_nil_r. split; [ done | ]. intros i args H.
    by rewrite lookup_nil in H. }
  induction fuel as [ | fuel IH ]; intros copy done w out w' Hrun;
    rewrite deleteLoop_unfold in Hrun;
    (destruct (heap w !! copy) as [ [ | x rest' ] | ];
     [ | | ]; try (injection Hrun as _ <-; by apply Hnone)).
  cbv beta iota zeta in Hrun.
  destruct log as [ sink | ] eqn:Hlog; [ | injection Hrun as _ <-; by apply Hnone ].
  set (rest := x :: rest') in *.
  set (next := take deleteAtMost rest) in *.
  revert Hrun. set (r := gcloud h _ _). intros Hrun.
  case_bool_decide.
  { injection Hrun as _ <-. cbn [logged stored trace]. rewrite <- !app_assoc.
    eexists. split; [ done | ]. cbn [app].
    intros [ | [ | [ | [ | i ] ] ] ] args Hi; try done.
    injection Hi as <-. exists 0%nat, sink, next, (stderr r). done. }
  destruct (stdout r) as [ parsed | ].
  - apply IH in Hrun as (more & -> & Hmore). cbn [logged stored trace].
    rewrite <- !app_assoc. eexists. split; [ done | ]. cbn [app].
    intros [ | [ | [ | [ | i ] ] ] ] args Hi; try done.
    + injection Hi as <-. exists 0%nat, sink, next, (stderr r). done.
    + cbn in Hi. apply Hmore in Hi as (i' & sink' & next' & s & -> & Hs & Hl & -> & Hst).
      exists (4 + i')%nat, sink', next', s. done.
  - injection Hrun as _ <-. cbn [logged stored trace]. rewrite <- !app_assoc.
    eexists. split; [ done | ]. cbn [app].
    intros [ | [ | [ | i ] ] ] args Hi; try done.
    injection Hi as <-. exists 0%nat, sink, next, (stderr r). done.
Qed.
End Announced.

(** X17. Every child process [deleteVersions] runs is announced: in the
    events it adds, a child process directly follows the message
    "Enacting deletion for versions" that names the ids it is given, sent
    to the log function of the options, and is directly followed by the
    writing of its standard error. *)
Theorem every_call_is_announced h options versions w :
  let run := deleteVersions h options versions w in
  ∃ more,
    trace run.2 = trace w ++ more
    ∧ ∀ i args, more !! i = Some (Spawned args) →
        ∃ i' sink next s,
          i = S i'
          ∧ (destructure options).1.1 = Some sink
          ∧ more !! i' = Some (Logged sink (EnactingDeletion next))
          ∧ args = deleteArguments (destructure options).1.2 (destructure options).2 next
          ∧ more !! S i = Some (StderrWritten s).
Proof.
  assert (Hnone : ∀ w0 : World, ∃ more : list Event,
    trace w0 = trace w0 ++ more
    ∧ ∀ i args, more !! i = Some (Spawned args) →
        ∃ i' sink next s,
          i = S i'
          ∧ (destructure options).1.1 = Some sink
          ∧ more !! i' = Some (Logged sink (EnactingDeletion next))
          ∧ args = deleteArguments (destructure options).1.2 (destructure options).2 next
          ∧ more !! S i = Some (StderrWritten s)).
  { intros w0. exists []. rewrite app_nil_r. split; [ done | ]. intros i args H.
    by rewrite lookup_nil in H. }
  cbv zeta. destruct (deleteVersions h options versions w) as [out w'] eqn:Hrun.
  cbn [snd].
  destruct (heap w !! versions) as [ a | ] eqn:Hread.
  - destruct (decide (Forall (fun v => badVersion v = false) a)) as [ Hok | Hbad ].
    + rewrite (deleteVersions_valid h options versions a w Hread Hok) in Hrun.
      by apply deleteLoop_announced in Hrun.
    + apply not_Forall_Exists in Hbad; [ | apply _ ].
      destruct (deleteVersions_invalid h options versions a w Hread)
        as (v & _ & _ & Hthrow).
      * eapply Exists_impl; [ exact Hbad | ]. intros v. cbn. by destruct (badVersion v).
      * rewrite Hthrow in Hrun. injection Hrun as _ <-. apply Hnone.
  - unfold deleteVersions in Hrun.
    destruct (destructure options) as [[log project] service].
    unfold bind at 1, read in Hrun. rewrite Hread in Hrun.
    injection Hrun as _ <-. apply Hnone.
Qed.

(** ** The run as a whole *)

(** [deleteVersions] as [purgeOldVersionsFor] calls it, with the project
    string for options: nothing to do for the empty list, and no call of
    [gcloud] for any other. *)
Lemma deleteVersions_of_string h project versions a w :
  heap w !! versions = Some a →
  ∃ w', trace w' = trace w
    ∧ ((a = [] ∧ deleteVersions h (OptionsString project) versions w = (Normal 0, w'))
       ∨ (a ≠ [] ∧ Forall (fun v => badVersion v = false) a
          ∧ deleteVersions h (OptionsString project) versions w
            = (Throw (TypeError "log is not a function"), w'))
       ∨ (∃ v, v ∈ a ∧ badVersion v = true
               ∧ deleteVersions h (OptionsString project) versions w
                 = (Throw (Error (BadVersion v)), w'))).
Proof.
  intros Hread.
  destruct (decide (Forall (fun v => badVersion v = false) a)) as [ Hok | Hbad ].
  - rewrite (deleteVersions_valid _ _ _ a) by done. cbn [destructure fst snd].
    rewrite deleteLoop_unfold, copied_lookup.
    destruct a as [ | x a' ]; eexists; (split; [ | eauto 6 ]); done.
  - apply not_Forall_Exists in Hbad; [ | apply _ ].
    destruct (deleteVersions_invalid h (OptionsString project) versions a w Hread)
      as (v & Hin & Hv & ->); [ | eauto 10 ].
    eapply Exists_impl; [ exact Hbad | ]. intros v. cbn. by destruct (badVersion v).
Qed.

(** How a run ends, and the one child process it has run by then. *)
Lemma purgeOldVersionsFor_ends h options w :
  ∃ out w',
    purgeOldVersionsFor h options w = (out, w')
    ∧ spawned w' = spawned w ++ [listArguments JsUndefined JsUndefined]
    ∧ (out = Normal JsUndefined
       ∨ ∃ e, out = Throw e ∧ ∀ count, e ≠ Error (DeletedWithError count)).
Proof.
  assert (Hthrows : ∀ e w',
    (∀ count, e ≠ Error (DeletedWithError count)) →
    spawned w' = spawned w ++ [listArguments JsUndefined JsUndefined] →
    ∃ out w'',
      (Throw e, w') = (out, w'')
      ∧ spawned w'' = spawned w ++ [listArguments JsUndefined JsUndefined]
      ∧ (out = @Normal JsValue JsUndefined
         ∨ ∃ e, out = Throw e ∧ ∀ count, e ≠ Error (DeletedWithError count))).
  { intros e w' He Hsp. exists (Throw e), w'.
    split; [ done | ]. split; [ done | ]. right. by exists e. }
  rewrite purgeOldVersionsFor_unfold. cbv zeta.
  case_bool_decide; [ apply Hthrows; [ done | by rewrite spawned_logged ] | ].
  destruct (stdout _) as [ versions | ];
    [ | apply Hthrows; [ done | by rewrite spawned_logged ] ].
  match goal with
  | |- context [deleteVersions h ?o ?l ?w2] =>
      destruct (deleteVersions_of_string h (PurgeOptions.project options) l
                  (JsString ∘ Candidate.id
                     <$> answered true (calls (classifyFor h options versions))) w2)
        as (w' & Htrace & Hrun)
  end.
  { cbn [heap]. rewrite lookup_app_r by lia. by rewrite Nat.sub_diag. }
  assert (Hsp : spawned w' = spawned w ++ [listArguments JsUndefined JsUndefined]).
  { unfold spawned at 1. rewrite Htrace.
    match goal with
    | |- omap _ (trace ?w2) = _ => fold (spawned w2)
    end.
    by rewrite spawned_app_logs, spawned_logged. }
  destruct Hrun as [ [Hnil ->] | [ (_ & _ & ->) | (v & _ & _ & ->) ] ];
    [ | by apply Hthrows .. ].
  apply fmap_nil_inv in Hnil. rewrite Hnil.
  cbn [length Z.of_nat Z.ltb Z.compare andb].
  exists (Normal JsUndefined), w'. split; [ done | ]. split; [ done | by left ].
Qed.

(** X18. A run never deletes anything: whatever the options, the host and
    the listing, [purgeOldVersionsFor] runs exactly one child process, the
    listing; it returns nothing but [undefined], and the error "Deleted 0
    versions with error" is never thrown. *)
Theorem a_run_never_deletes h options w :
  let run := purgeOldVersionsFor h options w in
  spawned run.2 = spawned w ++ [listArguments JsUndefined JsUndefined]
  ∧ (∀ v, run.1 = Normal v → v = JsUndefined)
  ∧ (∀ count, run.1 ≠ Throw (Error (DeletedWithError count)))
  ∧ run.1 ≠ Unfinished.
Proof.
  cbv zeta.
  destruct (purgeOldVersionsFor_ends h options w) as (out & w' & -> & Hsp & Hout).
  cbn [fst snd]. split; [ done | ].
  destruct Hout as [ -> | (e & -> & He) ].
  - split; [ by intros v [= <-] | done ].
  - split; [ done | ]. split; [ | done ]. intros count [= ->]. by apply (He count).
Qed.

(** X19. How a run ends. When the listing fails (any exit status but 0,
    or none) the run throws "could not list versions" with that status,
    and when it exits with 0 and prints no JSON it throws the SyntaxError
    of [JSON.parse]: in both cases nothing was logged and nothing else was
    run. Otherwise the run logs the message of each call of the filter, in
    order, to the log function of the options ([console.info] when there
    is none), and then returns [undefined] when no version is left for
    deletion, throws "log is not a function" when some are and their ids
    are safe, and throws "bad version" for an unsafe id among them. *)
Theorem outcomes_of_a_run h options w :
  let args := listArguments JsUndefined JsUndefined in
  let r := gcloud h (length (spawned w)) args in
  let run := purgeOldVersionsFor h options w in
  (status r ≠ Some 0 →
     run = (Throw (Error (CouldNotListVersions (status r))), logged w (Spawned args)))
  ∧ (status r = Some 0 → stdout r = NotJson →
       run = (Throw SyntaxError, logged w (Spawned args)))
  ∧ (∀ versions, status r = Some 0 → stdout r = Json versions →
       let c := classifyFor h options versions in
       let sink := default ConsoleInfo (PurgeOptions.log options) in
       trace run.2
       = trace w ++ Spawned args :: (Logged sink <$> (snd ∘ fst <$> calls c))
       ∧ (candidatesForDeletion c = [] → run.1 = Normal JsUndefined)
       ∧ (candidatesForDeletion c ≠ [] →
            Forall (fun id => ¬ unsafeId (JsString id)) (candidatesForDeletion c) →
            run.1 = Throw (TypeError "log is not a function"))
       ∧ (Exists (fun id => unsafeId (JsString id)) (candidatesForDeletion c) →
            ∃ id, id ∈ candidatesForDeletion c ∧ unsafeId (JsString id)
                  ∧ run.1 = Throw (Error (BadVersion (JsString id))))).
Proof.
  intros args r run. unfold run. rewrite purgeOldVersionsFor_unfold. cbv zeta.
  fold args r.
  split; [ intros Hs; by rewrite bool_decide_eq_true_2 | ].
  split; [ intros Hs Ho; rewrite bool_decide_eq_false_2 by (by intros ?); by rewrite Ho | ].
  intros versions Hs Ho. rewrite bool_decide_eq_false_2 by (by intros ?). rewrite Ho.
  set (c := classifyFor h options versions).
  set (ids := JsString ∘ Candidate.id <$> answered true (calls c)).
  assert (Hids : ids = JsString <$> candidatesForDeletion c).
  { unfold ids, candidatesForDeletion. by rewrite list_fmap_compose. }
  match goal with
  | |- context [deleteVersions h ?o ?l ?w2] =>
      destruct (deleteVersions_of_string h (PurgeOptions.project options) l ids w2)
        as (w' & Htrace & Hrun)
  end.
  { cbn [heap]. rewrite lookup_app_r by lia. by rewrite Nat.sub_diag. }
  cbn [trace logged] in Htrace. rewrite <- app_assoc in Htrace. cbn [app] in Htrace.
  assert (Hlen : length (answered true (calls c)) = length (candidatesForDeletion c)).
  { unfold candidatesForDeletion. by rewrite length_fmap. }
  rewrite Hlen.
  destruct Hrun as [ [Hnil ->] | [ (Hsome & Hvalid & ->) | (v & Hin & Hbad & ->) ] ];
    cbn [fst snd].
  - rewrite Hids in Hnil. apply fmap_nil_inv in Hnil. rewrite Hnil.
    cbn [length Z.of_nat Z.ltb Z.compare andb fst snd].
    split; [ done | ]. split; [ done | ]. split; [ done | ].
    intros Hex. by apply Exists_nil in Hex.
  - split; [ done | ]. split; [ | split; [ done | ] ].
    + intros Hnil. rewrite Hids, Hnil in Hsome. done.
    + intros Hex. apply Exists_exists in Hex as (id & Hid & Hunsafe).
      apply badVersion_unsafe in Hunsafe. rewrite Forall_forall in Hvalid.
      rewrite (Hvalid (JsString id)) in Hunsafe; [ done | ].
      rewrite Hids. by apply list_elem_of_fmap_2.
  - rewrite Hids in Hin. apply list_elem_of_fmap in Hin as (id & -> & Hid).
    apply badVersion_unsafe in Hbad.
    split; [ done | ]. split; [ | split ].
    + intros Hnil. rewrite Hnil in Hid. by apply elem_of_nil in Hid.
    + intros _ Hall. rewrite Forall_forall in Hall. by destruct (Hall id Hid).
    + intros _. by exists id.
Qed.


(** ** [run.js] *)


(** X20. The script [run.js], with [purgeOldVersionsFor] for the function
    it imports. With any number of arguments but one it prints the usage
    line and exits with status 1, and calls nothing. With one, it
    announces the project, and the call lists the versions of the project
    [undefined] and runs no other child process; then either the script
    ends and its last line is "Deleted undefined versions", never a
    number, or the call throws and no such line is printed. *)
Theorem the_script_reports_no_count h argv :
  let listing := Within (Spawned (listArguments JsUndefined JsUndefined)) in
  let said := (run_js (purgeOldVersionsFor h) argv).1 in
  let ending := (run_js (purgeOldVersionsFor h) argv).2 in
  (length argv ≠ 3%nat → said = [Warned (usage argv)] ∧ ending = Exited 1)
  ∧ (∀ node script project, argv = [node; script; project] →
       ∃ rest,
         said = Informed [JsString "Deleting old versions for"; JsString project]
                :: listing :: rest
         ∧ (∀ args, Within (Spawned args) ∉ rest)
         ∧ (ending = EndOfScript
            ∧ last said = Some (Informed [JsString "Deleted"; JsUndefined;
                                          JsString "versions"])
            ∨ (∃ e, ending = Uncaught e ∧ ∀ values, Informed values ∉ rest))).
Proof.
  intros listing said ending. split.
  - intros Hlen. unfold said, ending, run_js.
    destruct argv as [ | ? [ | ? [ | ? [ | ? ? ] ] ] ]; try done.
  - intros node script project ->. unfold said, ending, run_js.
    match goal with
    | |- context [purgeOldVersionsFor h ?o ?w] =>
        destruct (purgeOldVersionsFor_ends h o w) as (out & w' & Hrun & Hsp & Hout);
        pose proof (purgeOldVersionsFor_lists_undefined h o w) as [more Hmore];
        rewrite Hrun in *
    end.
    cbn [snd trace app] in Hmore. cbn [spawned trace app] in Hsp.
    unfold spawned in Hsp. rewrite Hmore in Hsp. cbn [omap list_omap app] in Hsp.
    injection Hsp as Hnone.
    assert (Hno : ∀ args, Spawned args ∉ more).
    { intros args Hin.
      assert (args ∈ omap (fun e => match e with Spawned a => Some a | _ => None end) more)
        as Hx by (apply list_elem_of_omap; by exists (Spawned args)).
      rewrite Hnone in Hx. by apply elem_of_nil in Hx. }
    assert (Hwithin : ∀ e extra, Within e ∈ (Within <$> more) ++ extra
                                 → e ∈ more ∨ Within e ∈ extra).
    { intros e extra [ Hin | Hin ]%elem_of_app; [ left | by right ].
      apply list_elem_of_fmap in Hin as (e' & [= ->] & Hin). done. }
    destruct Hout as [ -> | (e & -> & _) ]; rewrite Hmore; cbn [fmap list_fmap app fst snd].
    + eexists. split; [ done | ]. split.
      * intros args Hin. apply Hwithin in Hin as [ Hin | Hin ]; [ by apply Hno in Hin | ].
        apply list_elem_of_singleton in Hin. done.
      * left. split; [ done | ].
        rewrite !app_comm_cons. apply last_snoc.
    + exists (Within <$> more). split; [ done | ]. split.
      * intros args Hin. apply list_elem_of_fmap in Hin as (e' & [= <-] & Hin).
        by apply Hno in Hin.
      * right. exists e. split; [ done | ].
        intros values Hin. by apply list_elem_of_fmap in Hin as (e' & ? & _).
Qed.

(** * The properties at sample inputs *)

Lemma classification_partitions_witness :
  let r := classify utc (march29 + 16 * hour) "shop" "default" 1 1 sameDay in
  NoDup ["nine"; "fifteen"; "twelve"]
  ∧ kept r ++ candidatesForDeletion r ≡ₚ ["nine"; "fifteen"; "twelve"]
  ∧ (∀ id, id ∈ kept r → id ∈ candidatesForDeletion r → False).
Proof.
  assert (H : NoDup (Version.id <$> filter (inScope "shop" "default") sameDay)).
  { apply (bool_decide_unpack _). by vm_compute. }
  split; [ exact H | ].
  destruct (classification_partitions utc (march29 + 16 * hour) "shop" "default"
              1 1 sameDay) as (Hperm & Hdisjoint & _).
  split; [ exact Hperm | exact (proj2 (Hdisjoint H)) ].
Defined.

Lemma one_survivor_per_tracked_day_witness :
  let r := classify utc (march29 + 16 * hour) "shop" "default" 1 2 sameDay in
  (length (dayKeeps "2020-03-29" (calls r)) ≤ 1)%nat
  ∧ ∃ v, v ∈ sameDay ∧ dayKeeps "2020-03-29" (calls r) = [candidateOf v]
         ∧ Version.id v ∈ kept r.
Proof.
  assert (Hi : 0 <= 0 < 1) by lia.
  destruct (one_survivor_per_tracked_day utc (march29 + 16 * hour) "shop" "default"
              1 2 sameDay 0 Hi) as (_ & Hmost & Hone).
  split; [ exact (Hmost "2020-03-29") | ].
  destruct (Hone (deployed "nine" "default" 0 (march29 + 9 * hour)))
    as (v & Hv & _ & Hkeeps & _ & Hkept & _).
  - by left.
  - split; [ | by vm_compute ]. by vm_compute.
  - exists v. split; [ exact Hv | ]. split; [ exact Hkeeps | exact Hkept ].
Defined.

Lemma recent_versions_kept_witness :
  let r := classify utc (march29 + 16 * hour) "shop" "default" 1 1 sameDay in
  Z.of_nat (length (recentKeeps (calls r))) <= 1
  ∧ recentKeeps (calls r) = take 1 (notDayKeeps (calls r)).
Proof.
  assert (Hmin : 0 <= 1) by lia.
  destruct (recent_versions_kept utc (march29 + 16 * hour) "shop" "default"
              1 1 sameDay Hmin) as (Hmost & _ & _ & _ & Htake & _).
  split; [ exact Hmost | exact Htake ].
Defined.

Lemma filled_bucket_falls_through_witness :
  let r := classify utc (march29 + 16 * hour) "shop" "default" 1 2 sameDay in
  "twelve" ∈ kept r.
Proof.
  assert (Hi : 0 <= 0 < 1) by lia.
  destruct (filled_bucket_falls_through utc (march29 + 16 * hour) "shop" "default"
              1 2 sameDay 0
              [candidateOf (deployed "fifteen" "default" 0 (march29 + 15 * hour))]
              (candidateOf (deployed "twelve" "default" 0 (march29 + 12 * hour)))
              [candidateOf (deployed "nine" "default" 0 (march29 + 9 * hour))]
              Hi) as (_ & Hkeep & _).
  - by vm_compute.
  - by vm_compute.
  - apply Exists_cons_hd. by vm_compute.
  - apply Hkeep. by vm_compute.
Defined.

Lemma batched_deletion_witness :
  ∃ w', deleteVersions (hostListing [] 3) (OptionsObject allOptions) 0
          (listedWorld nineIds)
        = (Normal 8, w')
        ∧ length (spawned w') = 4%nat.
Proof.
  destruct (batched_deletion (hostListing [] 3) (OptionsObject allOptions)
              ConsoleInfo 0 nineIds (listedWorld nineIds)) as [_ Hfail].
  - reflexivity.
  - reflexivity.
  - apply (bool_decide_unpack _). by vm_compute.
  - destruct (Hfail 3%nat) as (w' & Hrun & _ & Hcalls).
    + vm_compute. lia.
    + intros j Hj. destruct j as [ | [ | j ] ]; [ by vm_compute .. | lia ].
    + by vm_compute.
    + exists w'. split; [ exact Hrun | exact Hcalls ].
Defined.

Lemma unsafe_id_aborts_before_any_call_witness :
  ∃ v, deleteVersions (hostListing [] 3) (OptionsObject allOptions) 0
         (listedWorld [JsString "a"; JsString "-foo"; JsString "b\c"])
       = (Throw (Error (BadVersion v)),
          listedWorld [JsString "a"; JsString "-foo"; JsString "b\c"]).
Proof.
  destruct (unsafe_id_aborts_before_any_call (hostListing [] 3)
              (OptionsObject allOptions) 0
              [JsString "a"; JsString "-foo"; JsString "b\c"]
              (listedWorld [JsString "a"; JsString "-foo"; JsString "b\c"]))
    as (v & _ & _ & Hthrow).
  - reflexivity.
  - apply Exists_cons_tl, Exists_cons_hd. left. by exists "foo".
  - exists v. exact Hthrow.
Defined.

Lemma deleteVersions_keeps_the_callers_list_witness :
  heap (deleteVersions (hostListing [] 3) (OptionsObject allOptions) 0
          (listedWorld nineIds)).2 !! 0%nat
  = Some nineIds.
Proof.
  refine (proj1 (deleteVersions_keeps_the_callers_list (hostListing [] 3)
                   (OptionsObject allOptions) 0 nineIds (listedWorld nineIds)
                   _ _ _ _)).
  - reflexivity.
  - apply surjective_pairing.
Defined.


(** ** The further properties at sample inputs *)

Lemma most_recent_are_kept_witness :
  "fifteen" ∈ kept (classify utc (march29 + 16 * hour) "shop" "default" 0 1 sameDay).
Proof.
  refine (proj2 (most_recent_are_kept utc (march29 + 16 * hour) "shop" "default"
                   0 1 sameDay 0
                   (candidateOf (deployed "fifteen" "default" 0 (march29 + 15 * hour)))
                   _ _)).
  - reflexivity.
  - reflexivity.
Defined.

Lemma keeping_more_deletes_no_more_witness :
  candidatesForDeletion (classify utc (march29 + 16 * hour) "shop" "default" 1 2 fiveOld)
  `sublist_of`
  candidatesForDeletion (classify utc (march29 + 16 * hour) "shop" "default" 0 1 fiveOld).
Proof.
  apply (keeping_more_deletes_no_more utc (march29 + 16 * hour) "shop" "default"
           0 1 1 2 fiveOld); lia.
Defined.

Lemma without_the_daily_rule_witness :
  let r := classify utc (march29 + 16 * hour) "shop" "default" 0 2 fiveOld in
  let sorted := sort (collectCandidates "shop" "default" fiveOld) in
  daysKept (calls r) = []
  ∧ kept r = Candidate.id <$> take 2 sorted
  ∧ candidatesForDeletion r = Candidate.id <$> drop 2 sorted.
Proof.
  apply (without_the_daily_rule utc (march29 + 16 * hour) "shop" "default" 0 2 fiveOld).
  lia.
Defined.

Lemma without_the_recent_rule_witness :
  let r := classify utc (march29 + 16 * hour) "shop" "default" 1 0 sameDay in
  recentKeeps (calls r) = [] ∧ (length (kept r) ≤ 1)%nat.
Proof.
  assert (Hmin : 0 <= 0) by lia.
  destruct (without_the_recent_rule utc (march29 + 16 * hour) "shop" "default"
              1 0 sameDay Hmin) as (Hnone & _ & _ & Hkept & _).
  split; [ exact Hnone | exact Hkept ].
Defined.

Lemma tracked_days_at_a_constant_offset_witness :
  trackedDays utc march29 2 !! "2020-03-28" = Some None.
Proof.
  destruct (tracked_days_at_a_constant_offset utc 0 march29 2 "2020-03-28")
    as [[_ Htracked] _].
  - reflexivity.
  - apply Htracked. exists 1. split; [ lia | reflexivity ].
Defined.

Lemma same_key_same_day_witness :
  dayKey march29 = dayKey (march29 + 23 * hour).
Proof.
  apply (same_key_same_day march29 (march29 + 23 * hour)).
  - vm_compute. split; discriminate.
  - vm_compute. split; discriminate.
  - reflexivity.
Defined.

Lemma listing_order_is_immaterial_witness :
  classify utc (march29 + 16 * hour) "shop" "default" 1 1 sameDay
  = classify utc (march29 + 16 * hour) "shop" "default" 1 1 (reverse sameDay).
Proof.
  apply (listing_order_is_immaterial utc (march29 + 16 * hour) "shop" "default"
           1 1 sameDay (reverse sameDay)).
  - symmetry. apply reverse_Permutation.
  - apply (bool_decide_unpack _). by vm_compute.
Defined.

Lemma calls_stop_at_the_first_failure_witness :
  let run := deleteVersions (hostListing [] 3) (OptionsObject allOptions) 0
               (listedWorld nineIds) in
  ∃ n, (n ≤ 3)%nat ∧ length (spawned run.2) = (1 + n)%nat.
Proof.
  destruct (calls_stop_at_the_first_failure (hostListing [] 3)
              (OptionsObject allOptions) 0 nineIds (listedWorld nineIds)
              (deleteVersions (hostListing [] 3) (OptionsObject allOptions) 0
                 (listedWorld nineIds)).1
              (deleteVersions (hostListing [] 3) (OptionsObject allOptions) 0
                 (listedWorld nineIds)).2)
    as (n & Hn & Hsp & _).
  - reflexivity.
  - apply (bool_decide_unpack _). by vm_compute.
  - apply surjective_pairing.
  - exists n. split; [ exact Hn | ].
    cbv zeta. rewrite Hsp, length_app, length_fmap, length_seq. reflexivity.
Defined.

Lemma only_safe_ids_reach_gcloud_witness :
  let run := deleteVersions (hostListing [] 3) (OptionsObject allOptions) 0
               (listedWorld nineIds) in
  ∃ made, spawned run.2 = spawned (listedWorld nineIds) ++ made
          ∧ ∀ args, args ∈ made → ∃ next, next `sublist_of` nineIds
              ∧ args = deleteArguments (JsString "shop") (JsString "default") next.
Proof.
  destruct (only_safe_ids_reach_gcloud (hostListing [] 3)
              (OptionsObject allOptions) 0 nineIds (listedWorld nineIds)
              (deleteVersions (hostListing [] 3) (OptionsObject allOptions) 0
                 (listedWorld nineIds)).1
              (deleteVersions (hostListing [] 3) (OptionsObject allOptions) 0
                 (listedWorld nineIds)).2)
    as (made & Hsp & Hmade).
  - reflexivity.
  - apply surjective_pairing.
  - exists made. split; [ exact Hsp | ].
    intros args Hargs. destruct (Hmade args Hargs) as (next & Heq & _ & _ & Hsub & _).
    exists next. split; [ exact Hsub | exact Heq ].
Defined.

Lemma without_a_log_function_witness :
  deleteVersions (hostListing [] 3) (OptionsString "shop") 0 (listedWorld nineIds)
  = (Throw (TypeError "log is not a function"),
     stored (copied (listedWorld nineIds) nineIds) 1 (drop deleteAtMost nineIds)).
Proof.
  apply (without_a_log_function (hostListing [] 3) (OptionsString "shop") 0
           nineIds (listedWorld nineIds)).
  - reflexivity.
  - reflexivity.
  - apply (bool_decide_unpack _). by vm_compute.
Defined.

Lemma outcomes_of_a_run_witness :
  purgeOldVersionsFor (hostListing sameDay 0) (onlyProject "shop") noWorld
  = (Throw (Error (CouldNotListVersions (Some 1))),
     logged noWorld (Spawned (listArguments JsUndefined JsUndefined))).
Proof.
  apply (proj1 (outcomes_of_a_run (hostListing sameDay 0) (onlyProject "shop") noWorld)).
  vm_compute. discriminate.
Defined.

Lemma the_script_reports_no_count_witness :
  ∃ rest,
    (run_js (purgeOldVersionsFor (hostListing sameDay 1)) ["node"; "run.js"; "shop"]).1
    = Informed [JsString "Deleting old versions for"; JsString "shop"]
      :: Within (Spawned (listArguments JsUndefined JsUndefined)) :: rest.
Proof.
  destruct (proj2 (the_script_reports_no_count (hostListing sameDay 1)
                     ["node"; "run.js"; "shop"])
              "node" "run.js" "shop") as (rest & Hsaid & _).
  - reflexivity.
  - exists rest. exact Hsaid.
Defined.

Lemma usage_is_the_number_listed_witness :
  Candidate.usage (candidateOf (deployed "a" "default" 0 march29)) = Finite false 1024.
Proof.
  refine (proj2 (proj1 (usage_is_the_number_listed
                          (deployed "a" "default" 0 march29) 1024 _) _) _).
  - lia.
  - reflexivity.
  - vm_compute. discriminate.
Defined.

(** ** The scenarios of the specification *)

(** Three versions of today, [keepMinimum = 2], [keepDailyAmount = 1]: the
    latest is kept for the day, the other two as recent, none is deleted. *)
Example three_of_one_day :
  let r := classify utc (march29 + 16 * hour) "shop" "default" 1 2 sameDay in
  kept r = ["fifteen"; "twelve"; "nine"] ∧ candidatesForDeletion r = [].
Proof. by vm_compute. Qed.

(** Nothing is kept: all five are candidates. *)
Example five_to_delete :
  let r := classify utc (march29 + 16 * hour) "shop" "default" 0 0 fiveOld in
  kept r = [] ∧ candidatesForDeletion r = ["a"; "b"; "c"; "d"; "e"].
Proof. by vm_compute. Qed.

(** Nine ids, the third call fails: 8 deleted, three delete calls after the
    listing. *)
Example nine_ids_third_call_fails :
  let run := deleteVersions (hostListing [] 3) (OptionsObject allOptions) 0
               (listedWorld nineIds) in
  run.1 = Normal 8 ∧ length (spawned run.2) = 4%nat.
Proof. by vm_compute. Qed.

(** * Where the run departs from its documentation *)

(** C2. In London at 00:30 on 26 October 2020, the day after the clocks
    went back, with [keepDailyAmount] at 2: the loop sets the keys of
    26 October and of 24 October, since half an hour into yesterday, local
    time, is 23:30 of the day before in UTC. The one version, deployed at
    noon yesterday (yesterday by the UTC date and by the local date alike),
    finds no bucket and is left for deletion; on a host on UTC it is kept
    for its day. *)
Theorem yesterday_is_not_tracked :
  let now := clock hostLondon in
  let t := Version.last_deployed_time yesterday in
  let r := classifyFor hostLondon twoDays [yesterday] in
  let run := purgeOldVersionsFor hostLondon twoDays noWorld in
  Date.toISOString now = "2020-10-26T00:30:00.000Z"
  ∧ Date.toISOString t = "2020-10-25T12:00:00.000Z"
  ∧ Date.Day t = Date.Day now - 1
  ∧ Date.getDate london2020 now = 26 ∧ Date.getDate london2020 t = 25
  ∧ dayKey (dayBefore london2020 now 0) = "2020-10-26"
  ∧ dayKey (dayBefore london2020 now 1) = "2020-10-24"
  ∧ versionsForDays (final r) !! "2020-10-25" = None
  ∧ dayKeeps "2020-10-25" (calls r) = []
  ∧ kept r = [] ∧ candidatesForDeletion r = ["yesterday"]
  ∧ trace run.2
    = [Spawned (listArguments JsUndefined JsUndefined);
       Logged ConsoleInfo (Deleting "yesterday" (now - t))]
  ∧ kept (classify utc now "shop" "default" 2 0 [yesterday]) = ["yesterday"].
Proof. by vm_compute. Qed.

(** C8. A run that ends without an error (three versions, all kept, none
    to delete) returns [undefined], not the count 0. *)
Theorem run_returns_undefined :
  let h := hostListing sameDay 1 in
  candidatesForDeletion (classifyFor h (onlyProject "shop") sameDay) = []
  ∧ (purgeOldVersionsFor h (onlyProject "shop") noWorld).1 = Normal JsUndefined.
Proof. by vm_compute. Qed.

(** C9. For the project "shop" (and the default service) the versions are
    listed with [undefined] for the project and for the service, and
    [deleteVersions] is handed the project string, which has no [log],
    project or service to give. The defaults are 20, 7, "default" and
    [console.info]. *)
Theorem listing_is_for_undefined :
  spawned (purgeOldVersionsFor (hostListing sameDay 1) (onlyProject "shop") noWorld).2
  = [listArguments JsUndefined JsUndefined]
  ∧ listArguments JsUndefined JsUndefined
    ≠ listArguments (JsString "shop") (JsString "default")
  ∧ destructure (OptionsString "shop") = (None, JsUndefined, JsUndefined)
  ∧ classifyFor (hostListing sameDay 1) (onlyProject "shop") sameDay
    = classify utc (march29 + 16 * hour) "shop" "default" 7 20 sameDay.
Proof. by vm_compute. Qed.
